(** * dbutton: a paginated list with inline buttons

    A shallow embedding of the Python package [dbutton] (modules
    [dbutton/utils.py] and [dbutton/button.py]) and the properties its
    specification states about it.

    Modelling conventions.
    - Python [int] is [Z]; [len] is [Z.of_nat (length _)]; [//] is floor
      division ([Z.div]) with the division by zero written out as
      [ZeroDivisionError].
    - Python [str] is [string], read as the UTF-8 encoding of the text;
      case mapping ([lower]) and [repr] act on ASCII characters and leave
      other bytes alone.  Python [float] is not modelled.
    - A record and a filter set are finite maps from field names to Python
      values ([gmap string pyval]); a decoded callback payload is a Python
      value whose dictionaries keep insertion order (association lists).
    - Methods of the class mutate [self] and may raise: they are
      computations in a state-and-exception monad over the record [dbutton],
      in which the state reached when an exception is raised is kept. *)

From Stdlib Require Import ZArith String Ascii Decimal DecimalString DecimalZ
  DecimalPos DecimalFacts.
From stdpp Require Import gmap strings list fin_maps.

Set Warnings "-register-all".

Local Open Scope Z_scope.

(** ** Python values, exceptions and text *)

Module Py.

(** The exception classes the modelled code can raise or let through.
    [OtherError] stands for any other class a plugged-in deserializer may
    raise; [Unmodelled] is not a Python exception: it marks a run of the
    JSON decoder that leaves the modelled fragment (floats, non-ASCII
    escapes). *)
Inductive exn : Type :=
  | ValueError (msg : string)
  | JSONDecodeError
  | TypeError
  | AttributeError
  | ZeroDivisionError
  | OtherError (cls : string)
  | Unmodelled (what : string).

Inductive outcome (A : Type) : Type :=
  | Ret (a : A)
  | Raise (e : exn).
Arguments Ret {A} a.
Arguments Raise {A} e.

Inductive pyval : Type :=
  | PNone
  | PBool (b : bool)
  | PInt (z : Z)
  | PStr (s : string)
  | PList (l : list pyval)
  | PDict (d : list (string * pyval)).

(** [str.lower()] on ASCII text. *)
Definition ascii_lower (c : ascii) : ascii :=
  let n := nat_of_ascii c in
  if ((65 <=? n) && (n <=? 90))%nat then ascii_of_nat (n + 32) else c.

Fixpoint lower (s : string) : string :=
  match s with
  | EmptyString => EmptyString
  | String c rest => String (ascii_lower c) (lower rest)
  end.

(** [str(z)] for an int. *)
Definition str_int (z : Z) : string := NilZero.string_of_int (Z.to_int z).

Definition hex_digit (n : nat) : ascii :=
  if (n <? 10)%nat then ascii_of_nat (48 + n) else ascii_of_nat (87 + n).

Fixpoint contains (c : ascii) (s : string) : bool :=
  match s with
  | EmptyString => false
  | String a rest => if Ascii.eqb a c then true else contains c rest
  end.

(** [repr] of a str: single quotes unless the text holds a single quote and
    no double quote; backslash, the quote, tab, newline and carriage return
    are escaped, other control characters are written as a hexadecimal
    escape. *)
Definition repr_char (quote c : ascii) : string :=
  let n := nat_of_ascii c in
  if Ascii.eqb c quote || Ascii.eqb c "\"%char then String "\" (String c "")
  else if (n =? 9)%nat then "\t"
  else if (n =? 10)%nat then "\n"
  else if (n =? 13)%nat then "\r"
  else if ((n <? 32) || (n =? 127))%nat
       then String "\" (String "x" (String (hex_digit (n / 16))
                                       (String (hex_digit (n mod 16)) "")))
  else String c "".

Fixpoint repr_chars (quote : ascii) (s : string) : string :=
  match s with
  | EmptyString => EmptyString
  | String c rest => repr_char quote c +:+ repr_chars quote rest
  end.

Definition dquote : ascii := ascii_of_nat 34.
Definition squote : ascii := ascii_of_nat 39.

Definition repr_str (s : string) : string :=
  let quote := if contains squote s && negb (contains dquote s)
               then dquote else squote in
  String quote (repr_chars quote s +:+ String quote "").

Fixpoint py_repr (v : pyval) : string :=
  match v with
  | PNone => "None"
  | PBool true => "True"
  | PBool false => "False"
  | PInt z => str_int z
  | PStr s => repr_str s
  | PList l => "[" +:+ String.concat ", " (map py_repr l) +:+ "]"
  | PDict d =>
      "{" +:+ String.concat ", "
                (map (fun '(k, x) => repr_str k +:+ ": " +:+ py_repr x) d)
          +:+ "}"
  end.

(** [str(v)]. *)
Definition py_str (v : pyval) : string :=
  match v with
  | PStr s => s
  | _ => py_repr v
  end.

(** [d.get(key)] / [d.get(key, default)] on an insertion-ordered dict. *)
Fixpoint dict_get (d : list (string * pyval)) (key : string) : option pyval :=
  match d with
  | [] => None
  | (k, v) :: rest => if String.eqb k key then Some v else dict_get rest key
  end.

(** [d[key] = v]: the key keeps its place when it is already present. *)
Fixpoint dict_set (d : list (string * pyval)) (key : string) (v : pyval)
  : list (string * pyval) :=
  match d with
  | [] => [(key, v)]
  | (k, x) :: rest =>
      if String.eqb k key then (k, v) :: rest else (k, x) :: dict_set rest key v
  end.

(** [seq[start:stop]]: a negative bound counts from the end, and both
    bounds are then clamped to [0, len]. *)
Definition slice_index (n i : Z) : Z :=
  if i <? 0 then Z.max (i + n) 0 else Z.min i n.

Definition py_slice {A : Type} (l : list A) (start stop : Z) : list A :=
  let n := Z.of_nat (length l) in
  let lo := slice_index n start in
  let hi := slice_index n stop in
  take (Z.to_nat (hi - lo)) (drop (Z.to_nat lo) l).

(** [v == s] for a str [s]. *)
Definition eq_str (v : pyval) (s : string) : bool :=
  match v with
  | PStr t => String.eqb t s
  | _ => false
  end.

(** An int usable in a comparison with an int and as a list index: [int]
    itself and its subclass [bool]. *)
Definition as_int (v : pyval) : option Z :=
  match v with
  | PInt z => Some z
  | PBool b => Some (if b then 1 else 0)
  | _ => None
  end.

End Py.
Export Py.

(** ** dbutton/utils.py *)

(** The inner loop of [apply_filters]: every [(key, val)] of
    [filters.items()] is compared, stopping at the first mismatch.  The
    loop only computes a conjunction, so the order in which the items of
    the dict come does not show in its result. *)
Fixpoint filters_match (item : gmap string pyval) (items : list (string * pyval))
  : bool :=
  match items with
  | [] => true
  | (key, val) :: rest =>
      if negb (String.eqb (lower (py_str (default (PStr "") (item !! key))))
                          (lower (py_str val)))
      then false
      else filters_match item rest
  end.

(** [list(data)] is the list itself: values are immutable here. *)
Definition apply_filters (data : list (gmap string pyval))
    (filters : gmap string pyval) : list (gmap string pyval) :=
  if decide (filters = ∅) then data
  else
    fold_left
      (fun result item =>
         if filters_match item (map_to_list filters)
         then result ++ [item] else result)
      data [].

Definition paginate {A : Type} (data : list A) (page page_size : Z)
  : outcome (list A * Z) :=
  let total := Z.of_nat (length data) in
  if decide (page_size = 0) then Raise ZeroDivisionError
  else
    let total_pages := Z.max 1 ((total + page_size - 1) / page_size) in
    let start := (page - 1) * page_size in
    let end_ := start + page_size in
    Ret (py_slice data start end_, total_pages).


(** ** The default callback codec: [json.dumps] and [json.loads]

    The constructor installs [json.dumps] and [json.loads] when no codec is
    given.  Both belong to Python's standard library, outside the
    repository; the specification only calls them "a standard
    structured-text encoding".  They are modelled on the value universe
    above with the library's defaults: item separator [", "], key separator
    [": "], keys in insertion order, strict decoding. *)

Module Json.

Definition hex4 (n : nat) : string :=
  String (hex_digit (n / 4096))
    (String (hex_digit (n / 256 mod 16))
       (String (hex_digit (n / 16 mod 16))
          (String (hex_digit (n mod 16)) ""))).

Definition escape_char (c : ascii) : string :=
  let n := nat_of_ascii c in
  if Ascii.eqb c dquote then String "\" (String dquote "")
  else if Ascii.eqb c "\"%char then "\\"
  else if (n =? 10)%nat then "\n"
  else if (n =? 13)%nat then "\r"
  else if (n =? 9)%nat then "\t"
  else if (n =? 12)%nat then "\f"
  else if (n =? 8)%nat then "\b"
  else if ((n <? 32) || (n =? 127))%nat then "\u" +:+ hex4 n
  else String c "".

Fixpoint escape (s : string) : string :=
  match s with
  | EmptyString => EmptyString
  | String c rest => escape_char c +:+ escape rest
  end.

Definition dumps_str (s : string) : string :=
  String dquote (escape s +:+ String dquote "").

(** Modelled from the spec: the default serializer, [json.dumps] with its
    default arguments.  Bytes above 127 are written as they are, where the
    library writes the escapes of the code points they encode. *)
Fixpoint dumps (v : pyval) : string :=
  match v with
  | PNone => "null"
  | PBool true => "true"
  | PBool false => "false"
  | PInt z => str_int z
  | PStr s => dumps_str s
  | PList l => "[" +:+ String.concat ", " (map dumps l) +:+ "]"
  | PDict d =>
      "{" +:+ String.concat ", "
                (map (fun '(k, x) => dumps_str k +:+ ": " +:+ dumps x) d)
          +:+ "}"
  end.

(** What a scanning step yields: a value and the unread rest, a syntax
    error, a construct outside the modelled fragment, or an exhausted
    recursion budget. *)
Inductive scan (A : Type) : Type :=
  | Scanned (a : A) (rest : string)
  | Malformed
  | Outside (what : string)
  | Exhausted.
Arguments Scanned {A} a rest.
Arguments Malformed {A}.
Arguments Outside {A} what.
Arguments Exhausted {A}.

Definition is_ws (c : ascii) : bool :=
  let n := nat_of_ascii c in
  ((n =? 32) || (n =? 9) || (n =? 10) || (n =? 13))%nat.

Fixpoint skip_ws (s : string) : string :=
  match s with
  | EmptyString => EmptyString
  | String c rest => if is_ws c then skip_ws rest else s
  end.

Fixpoint strip_prefix (p s : string) : option string :=
  match p, s with
  | EmptyString, _ => Some s
  | String a p', String b s' => if Ascii.eqb a b then strip_prefix p' s' else None
  | String _ _, EmptyString => None
  end.

Definition digit_of (c : ascii) : option (uint -> uint) :=
  match c with
  | "0"%char => Some D0 | "1"%char => Some D1 | "2"%char => Some D2
  | "3"%char => Some D3 | "4"%char => Some D4 | "5"%char => Some D5
  | "6"%char => Some D6 | "7"%char => Some D7 | "8"%char => Some D8
  | "9"%char => Some D9 | _ => None
  end.

Definition is_digit (c : ascii) : bool :=
  match digit_of c with Some _ => true | None => false end.

(** The longest run of digits at the head of the text. *)
Fixpoint scan_digits (s : string) : uint * string :=
  match s with
  | EmptyString => (Nil, EmptyString)
  | String c rest =>
      match digit_of c with
      | Some dc => let '(d, r) := scan_digits rest in (dc d, r)
      | None => (Nil, s)
      end
  end.

(** The integer part of a number: [0] or a non-zero digit and more digits. *)
Definition scan_nat (s : string) : option (uint * string) :=
  match s with
  | EmptyString => None
  | String c rest =>
      if Ascii.eqb c "0"%char then Some (D0 Nil, rest)
      else if is_digit c then Some (scan_digits s)
      else None
  end.

(** A fraction or an exponent follows: the literal is a float. *)
Definition float_tail (s : string) : bool :=
  match s with
  | String c rest =>
      if Ascii.eqb c "."%char then
        match rest with String c1 _ => is_digit c1 | EmptyString => false end
      else if Ascii.eqb c "e"%char || Ascii.eqb c "E"%char then
        match rest with
        | String c1 rest1 =>
            if is_digit c1 then true
            else if Ascii.eqb c1 "+"%char || Ascii.eqb c1 "-"%char then
              match rest1 with String c2 _ => is_digit c2 | EmptyString => false end
            else false
        | EmptyString => false
        end
      else false
  | EmptyString => false
  end.

Definition scan_number (negative : bool) (s : string) : scan pyval :=
  match scan_nat s with
  | None => Malformed
  | Some (d, rest) =>
      if float_tail rest then Outside "float"
      else Scanned (PInt (Z.of_int (if negative then Neg d else Pos d))) rest
  end.

Definition hex_value (c : ascii) : option nat :=
  let n := nat_of_ascii c in
  if ((48 <=? n) && (n <=? 57))%nat then Some (n - 48)%nat
  else if ((97 <=? n) && (n <=? 102))%nat then Some (n - 87)%nat
  else if ((65 <=? n) && (n <=? 70))%nat then Some (n - 55)%nat
  else None.

Definition simple_escape (c : ascii) : option ascii :=
  if Ascii.eqb c dquote then Some dquote
  else if Ascii.eqb c "\"%char then Some "\"%char
  else if Ascii.eqb c "/"%char then Some "/"%char
  else if Ascii.eqb c "b"%char then Some (ascii_of_nat 8)
  else if Ascii.eqb c "f"%char then Some (ascii_of_nat 12)
  else if Ascii.eqb c "n"%char then Some (ascii_of_nat 10)
  else if Ascii.eqb c "r"%char then Some (ascii_of_nat 13)
  else if Ascii.eqb c "t"%char then Some (ascii_of_nat 9)
  else None.

Definition cons_char (c : ascii) (r : scan string) : scan string :=
  match r with
  | Scanned body rest => Scanned (String c body) rest
  | other => other
  end.

(** The body of a string literal, after its opening quote. *)
Fixpoint scan_string (s : string) : scan string :=
  match s with
  | EmptyString => Malformed
  | String c rest =>
      if Ascii.eqb c dquote then Scanned EmptyString rest
      else if Ascii.eqb c "\"%char then
        match rest with
        | EmptyString => Malformed
        | String e rest1 =>
            if Ascii.eqb e "u"%char then
              match rest1 with
              | String h1 (String h2 (String h3 (String h4 rest2))) =>
                  match hex_value h1, hex_value h2, hex_value h3, hex_value h4 with
                  | Some a, Some b, Some c4, Some d =>
                      let cp := (a * 4096 + b * 256 + c4 * 16 + d)%nat in
                      if (cp <? 128)%nat
                      then cons_char (ascii_of_nat cp) (scan_string rest2)
                      else Outside "non-ASCII escape"
                  | _, _, _, _ => Malformed
                  end
              | _ => Malformed
              end
            else
              match simple_escape e with
              | Some x => cons_char x (scan_string rest1)
              | None => Malformed
              end
        end
      else if (nat_of_ascii c <? 32)%nat then Malformed
      else cons_char c (scan_string rest)
  end.

(** [scan_once], [JSONArray] and [JSONObject] of the decoder; [fuel] bounds
    the number of nested calls. *)
Fixpoint scan_value (fuel : nat) (s : string) : scan pyval :=
  match fuel with
  | O => Exhausted
  | S fuel' =>
      match s with
      | EmptyString => Malformed
      | String c rest =>
          if Ascii.eqb c dquote then
            match scan_string rest with
            | Scanned body r => Scanned (PStr body) r
            | Malformed => Malformed
            | Outside w => Outside w
            | Exhausted => Exhausted
            end
          else if Ascii.eqb c "{"%char then
            match skip_ws rest with
            | String c1 r1 =>
                if Ascii.eqb c1 "}"%char then Scanned (PDict []) r1
                else scan_members fuel' [] (String c1 r1)
            | EmptyString => Malformed
            end
          else if Ascii.eqb c "["%char then
            match skip_ws rest with
            | String c1 r1 =>
                if Ascii.eqb c1 "]"%char then Scanned (PList []) r1
                else scan_elements fuel' [] (String c1 r1)
            | EmptyString => Malformed
            end
          else if Ascii.eqb c "n"%char then
            match strip_prefix "ull" rest with
            | Some r => Scanned PNone r
            | None => Malformed
            end
          else if Ascii.eqb c "t"%char then
            match strip_prefix "rue" rest with
            | Some r => Scanned (PBool true) r
            | None => Malformed
            end
          else if Ascii.eqb c "f"%char then
            match strip_prefix "alse" rest with
            | Some r => Scanned (PBool false) r
            | None => Malformed
            end
          else if Ascii.eqb c "N"%char then
            match strip_prefix "aN" rest with
            | Some _ => Outside "float"
            | None => Malformed
            end
          else if Ascii.eqb c "I"%char then
            match strip_prefix "nfinity" rest with
            | Some _ => Outside "float"
            | None => Malformed
            end
          else if Ascii.eqb c "-"%char then
            match strip_prefix "Infinity" rest with
            | Some _ => Outside "float"
            | None => scan_number true rest
            end
          else scan_number false s
      end
  end

with scan_elements (fuel : nat) (acc : list pyval) (s : string) : scan pyval :=
  match fuel with
  | O => Exhausted
  | S fuel' =>
      match scan_value fuel' s with
      | Scanned v r =>
          match skip_ws r with
          | String c r1 =>
              if Ascii.eqb c "]"%char then Scanned (PList (acc ++ [v])) r1
              else if Ascii.eqb c ","%char
                   then scan_elements fuel' (acc ++ [v]) (skip_ws r1)
              else Malformed
          | EmptyString => Malformed
          end
      | other => other
      end
  end

with scan_members (fuel : nat) (acc : list (string * pyval)) (s : string)
  : scan pyval :=
  match fuel with
  | O => Exhausted
  | S fuel' =>
      match s with
      | String q r0 =>
          if Ascii.eqb q dquote then
            match scan_string r0 with
            | Scanned key r =>
                match skip_ws r with
                | String c r1 =>
                    if Ascii.eqb c ":"%char then
                      match scan_value fuel' (skip_ws r1) with
                      | Scanned v r2 =>
                          match skip_ws r2 with
                          | String c2 r3 =>
                              if Ascii.eqb c2 "}"%char
                              then Scanned (PDict (dict_set acc key v)) r3
                              else if Ascii.eqb c2 ","%char
                                   then scan_members fuel' (dict_set acc key v)
                                          (skip_ws r3)
                              else Malformed
                          | EmptyString => Malformed
                          end
                      | other => other
                      end
                    else Malformed
                | EmptyString => Malformed
                end
            | Malformed => Malformed
            | Outside w => Outside w
            | Exhausted => Exhausted
            end
          else Malformed
      | EmptyString => Malformed
      end
  end.

(** Modelled from the spec: the default deserializer, [json.loads]: one
    value, with white space allowed around it and nothing else after it.
    Number literals with a fraction or an exponent, [NaN] and [Infinity]
    denote floats, and escapes above U+007F denote non-ASCII text: the
    model reports both as [Unmodelled].  Every nested call of the scanner
    follows a character of the text, so twice its length is budget
    enough. *)
Definition loads (s : string) : outcome pyval :=
  match scan_value (2 * String.length s + 2) (skip_ws s) with
  | Scanned v rest =>
      match skip_ws rest with
      | EmptyString => Ret v
      | String _ _ => Raise JSONDecodeError
      end
  | Malformed => Raise JSONDecodeError
  | Outside w => Raise (Unmodelled w)
  | Exhausted => Raise (OtherError "RecursionError")
  end.

End Json.

(** ** dbutton/button.py *)

(** Modelled from the spec: the inline-keyboard classes that
    [_init_framework_handlers] imports from the three chat-bot SDKs
    (python-telegram-bot, aiogram, pyrogram) are outside the repository.
    Section 6 of the specification gives their shape: a button is a label
    and a token, a markup is an ordered sequence of rows of buttons.  An
    object remembers the SDK whose class built it. *)
Inductive sdk : Type := Telegram | Aiogram | Pyrogram.

Record InlineKeyboardButton : Type := {
  button_class : sdk;
  text : string;
  callback_data : string
}.

Record InlineKeyboardMarkup : Type := {
  markup_class : sdk;
  inline_keyboard : list (list InlineKeyboardButton)
}.

(** An entry of [self._handlers]: the two classes of one SDK. *)
Record handler : Type := {
  button : sdk;
  markup : sdk
}.

(** The attributes of a [dbutton] instance.  [selected_item] is [None]
    until a callback assigns the attribute. *)
Record dbutton : Type := {
  raw_data : list (gmap string pyval);
  fields : list string;
  page_size : Z;
  filters : gmap string pyval;
  current_page : Z;
  _serialize_callback : pyval -> string;
  _deserialize_callback : string -> outcome pyval;
  _handlers : gmap string handler;
  filtered : list (gmap string pyval);
  page_data : list (gmap string pyval);
  total_pages : Z;
  selected_item : option (gmap string pyval)
}.

Definition with_filters (v : gmap string pyval) (self : dbutton) : dbutton :=
  {| raw_data := raw_data self; fields := fields self;
     page_size := page_size self; filters := v;
     current_page := current_page self;
     _serialize_callback := _serialize_callback self;
     _deserialize_callback := _deserialize_callback self;
     _handlers := _handlers self; filtered := filtered self;
     page_data := page_data self; total_pages := total_pages self;
     selected_item := selected_item self |}.

Definition with_current_page (v : Z) (self : dbutton) : dbutton :=
  {| raw_data := raw_data self; fields := fields self;
     page_size := page_size self; filters := filters self;
     current_page := v;
     _serialize_callback := _serialize_callback self;
     _deserialize_callback := _deserialize_callback self;
     _handlers := _handlers self; filtered := filtered self;
     page_data := page_data self; total_pages := total_pages self;
     selected_item := selected_item self |}.

Definition with_handlers (v : gmap string handler) (self : dbutton) : dbutton :=
  {| raw_data := raw_data self; fields := fields self;
     page_size := page_size self; filters := filters self;
     current_page := current_page self;
     _serialize_callback := _serialize_callback self;
     _deserialize_callback := _deserialize_callback self;
     _handlers := v; filtered := filtered self;
     page_data := page_data self; total_pages := total_pages self;
     selected_item := selected_item self |}.

Definition with_filtered (v : list (gmap string pyval)) (self : dbutton)
  : dbutton :=
  {| raw_data := raw_data self; fields := fields self;
     page_size := page_size self; filters := filters self;
     current_page := current_page self;
     _serialize_callback := _serialize_callback self;
     _deserialize_callback := _deserialize_callback self;
     _handlers := _handlers self; filtered := v;
     page_data := page_data self; total_pages := total_pages self;
     selected_item := selected_item self |}.

(** The tuple assignment [self.page_data, self.total_pages = ...]. *)
Definition with_page (v : list (gmap string pyval) * Z) (self : dbutton)
  : dbutton :=
  {| raw_data := raw_data self; fields := fields self;
     page_size := page_size self; filters := filters self;
     current_page := current_page self;
     _serialize_callback := _serialize_callback self;
     _deserialize_callback := _deserialize_callback self;
     _handlers := _handlers self; filtered := filtered self;
     page_data := fst v; total_pages := snd v;
     selected_item := selected_item self |}.

Definition with_selected_item (v : gmap string pyval) (self : dbutton)
  : dbutton :=
  {| raw_data := raw_data self; fields := fields self;
     page_size := page_size self; filters := filters self;
     current_page := current_page self;
     _serialize_callback := _serialize_callback self;
     _deserialize_callback := _deserialize_callback self;
     _handlers := _handlers self; filtered := filtered self;
     page_data := page_data self; total_pages := total_pages self;
     selected_item := Some v |}.

(** Methods: the instance is threaded through, and an exception leaves it
    as it was when the exception was raised. *)
Definition method (A : Type) : Type := dbutton -> outcome A * dbutton.

Definition ret {A : Type} (a : A) : method A := fun self => (Ret a, self).

Definition raise {A : Type} (e : exn) : method A := fun self => (Raise e, self).

Definition bind {A B : Type} (m : method A) (k : A -> method B) : method B :=
  fun self =>
    match m self with
    | (Ret a, self') => k a self'
    | (Raise e, self') => (Raise e, self')
    end.

Definition get : method dbutton := fun self => (Ret self, self).

Definition assign (update : dbutton -> dbutton) : method unit :=
  fun self => (Ret tt, update self).

Definition lift {A : Type} (o : outcome A) : method A := fun self => (o, self).

Declare Scope method_scope.
Delimit Scope method_scope with method.
Notation "x <- m ;; k" := (bind m (fun x => k))
  (at level 100, m at next level, right associativity) : method_scope.
Notation "m ;; k" := (bind m (fun _ => k))
  (at level 100, right associativity) : method_scope.
Local Open Scope method_scope.

Definition _refresh : method unit :=
  self <- get ;;
  assign (with_filtered (apply_filters (raw_data self) (filters self))) ;;
  self <- get ;;
  page <- lift (paginate (filtered self) (current_page self) (page_size self)) ;;
  assign (with_page page).

(** Each [try: from ... import ...] registers the classes of an SDK that
    can be imported and passes over one that cannot. *)
Definition _init_framework_handlers (installed : sdk -> bool) : method unit :=
  (if installed Telegram
   then self <- get ;;
        assign (with_handlers
                  (<["python-telegram-bot" :=
                       {| button := Telegram; markup := Telegram |}]>
                     (_handlers self)))
   else ret tt) ;;
  (if installed Aiogram
   then self <- get ;;
        assign (with_handlers
                  (<["aiogram" := {| button := Aiogram; markup := Aiogram |}]>
                     (_handlers self)))
   else ret tt) ;;
  (if installed Pyrogram
   then self <- get ;;
        assign (with_handlers
                  (<["pyrogram" := {| button := Pyrogram; markup := Pyrogram |}]>
                     (_handlers self)))
   else ret tt).

(** The constructor.  [installed] tells which SDKs the interpreter can
    import; the three computed attributes hold placeholders until
    [_refresh] assigns them. *)
Definition __init__ (installed : sdk -> bool)
    (data_source : list (gmap string pyval)) (fields : list string)
    (page_size : Z) (filters : option (gmap string pyval))
    (callback_data_serializer : option (pyval -> string))
    (callback_data_deserializer : option (string -> outcome pyval))
  : outcome dbutton :=
  if decide (10 < length fields)%nat
  then Raise (ValueError "Maximum 10 fields allowed")
  else
    let self :=
      {| raw_data := data_source; fields := fields; page_size := page_size;
         filters := default ∅ filters; current_page := 1;
         _serialize_callback := default Json.dumps callback_data_serializer;
         _deserialize_callback := default Json.loads callback_data_deserializer;
         _handlers := ∅; filtered := []; page_data := []; total_pages := 0;
         selected_item := None |} in
    match (_refresh ;; _init_framework_handlers installed) self with
    | (Ret _, self') => Ret self'
    | (Raise e, _) => Raise e
    end.

Definition set_filters (kwargs : gmap string pyval) : method unit :=
  assign (with_filters kwargs) ;;
  assign (with_current_page 1) ;;
  _refresh.

Definition next_page : method bool :=
  self <- get ;;
  if decide (current_page self < total_pages self) then
    assign (with_current_page (current_page self + 1)) ;;
    _refresh ;;
    ret true
  else ret false.

Definition prev_page : method bool :=
  self <- get ;;
  if decide (current_page self > 1) then
    assign (with_current_page (current_page self - 1)) ;;
    _refresh ;;
    ret true
  else ret false.

(** [enumerate(l, start)]. *)
Fixpoint enumerate {A : Type} (start : Z) (l : list A) : list (Z * A) :=
  match l with
  | [] => []
  | x :: rest => (start, x) :: enumerate (start + 1) rest
  end.

Definition newline : string := String (ascii_of_nat 10) "".

Definition message_line (fields : list string) (idx : Z)
    (record : gmap string pyval) : string :=
  String.concat " — "
    (str_int idx
     :: map (fun field => py_str (default (PStr "") (record !! field))) fields).

Definition detail_token (index page : Z) : pyval :=
  PDict [("action", PStr "detail"); ("index", PInt index); ("page", PInt page)].

(** [self._handlers.get(framework,
      self._handlers.get('python-telegram-bot'))]. *)
Definition handler_for (self : dbutton) (framework : string) : option handler :=
  match _handlers self !! framework with
  | Some h => Some h
  | None => _handlers self !! "python-telegram-bot"
  end.

Definition build_message (framework : string)
  : method (string * InlineKeyboardMarkup) :=
  self <- get ;;
  let lines :=
    map (fun '(idx, record) => message_line (fields self) idx record)
        (enumerate 1 (page_data self)) in
  let joined := String.concat newline lines in
  let text := if String.eqb joined "" then "No data available." else joined in
  match handler_for self framework with
  | None => raise (ValueError ("No handler found for framework: " +:+ framework))
  | Some handler =>
      let ButtonClass label data :=
        {| button_class := button handler; text := label;
           callback_data := data |} in
      let MarkupClass rows :=
        {| markup_class := markup handler; inline_keyboard := rows |} in
      let button_rows :=
        map (fun i =>
               [ButtonClass (str_int i)
                  (_serialize_callback self
                     (detail_token (i - 1) (current_page self)))])
            (seqZ 1 (Z.of_nat (length (page_data self)))) in
      let nav_buttons :=
        (if decide (current_page self > 1)
         then [ButtonClass "«"
                 (_serialize_callback self (PDict [("action", PStr "prev")]))]
         else [])
        ++
        (if decide (current_page self < total_pages self)
         then [ButtonClass "»"
                 (_serialize_callback self (PDict [("action", PStr "next")]))]
         else []) in
      ret (text,
           MarkupClass (if decide (nav_buttons = [])
                        then button_rows else button_rows ++ [nav_buttons]))
  end.

(** The body of [_handle_callback] once [data] is bound. *)
Definition dispatch (data : pyval) : method (bool * string) :=
  match data with
  | PDict d =>
      let action := default PNone (dict_get d "action") in
      if eq_str action "next" then
        moved <- next_page ;;
        if moved then ret (true, "Next page")
        else ret (false, "Already on last page")
      else if eq_str action "prev" then
        moved <- prev_page ;;
        if moved then ret (true, "Previous page")
        else ret (false, "Already on first page")
      else if eq_str action "detail" then
        let index := default (PInt 0) (dict_get d "index") in
        match as_int index with
        | None => raise TypeError
        | Some i =>
            self <- get ;;
            if decide (0 <= i < Z.of_nat (length (page_data self))) then
              match page_data self !! Z.to_nat i with
              | Some record =>
                  assign (with_selected_item record) ;;
                  ret (true, "Selected item " +:+ py_str index)
              | None => raise (OtherError "IndexError")
              end
            else ret (false, "Invalid item index")
        end
      else ret (false, "Unknown action")
  | _ => raise AttributeError
  end.

Definition _handle_callback (callback_data : pyval) : method (bool * string) :=
  match callback_data with
  | PStr s =>
      self <- get ;;
      match _deserialize_callback self s with
      | Ret data => dispatch data
      | Raise JSONDecodeError | Raise TypeError =>
          ret (false, "Invalid callback data")
      | Raise e => raise e
      end
  | _ => dispatch callback_data
  end.

(** ** Vocabulary of the specification *)

(** [ceil(a / b)], the ceiling of the exact quotient. *)
Definition ceil_div (a b : Z) : Z := - ((- a) / b).

(** A position clamped to the bounds of a sequence of length [n]. *)
Definition clamp (n i : Z) : Z := Z.max 0 (Z.min i n).

(** The part of [l] from position [a] to position [b], both clamped to the
    bounds of the sequence. *)
Definition window {A : Type} (l : list A) (a b : Z) : list A :=
  let n := Z.of_nat (length l) in
  take (Z.to_nat (clamp n b - clamp n a)) (drop (Z.to_nat (clamp n a)) l).

(** The two results of [paginate] for a page size that is not zero. *)
Definition page_slice {A : Type} (records : list A) (page page_size : Z)
  : list A :=
  match paginate records page page_size with
  | Ret (slice, _) => slice
  | Raise _ => []
  end.

Definition page_count {A : Type} (records : list A) (page_size : Z) : Z :=
  match paginate records 1 page_size with
  | Ret (_, total) => total
  | Raise _ => 0
  end.

(** The position in the record list of entry [i] of page [page]. *)
Definition position (page_size page : Z) (i : nat) : nat :=
  (Z.to_nat ((page - 1) * page_size) + i)%nat.

(** A record passes a filter set: the text of its field, or the empty
    text when the field is missing, equals the text of the filter value
    for every key, letter case apart. *)
Definition passes (filters : gmap string pyval) (record : gmap string pyval)
  : Prop :=
  map_Forall
    (fun key val =>
       lower (py_str (default (PStr "") (record !! key))) = lower (py_str val))
    filters.

#[global] Instance passes_dec filters record : Decision (passes filters record).
Proof. unfold passes. apply _. Defined.

(** The callback tokens the controller issues. *)
Inductive valid_token : pyval -> Prop :=
  | token_next : valid_token (PDict [("action", PStr "next")])
  | token_prev : valid_token (PDict [("action", PStr "prev")])
  | token_detail (index page : Z) : valid_token (detail_token index page).

(** The public operations of a controller, and a run of them on an
    instance: whatever an operation returns or raises, the instance it
    leaves behind is the one the next operation works on. *)
Inductive operation : Type :=
  | SetFilters (kwargs : gmap string pyval)
  | NextPage
  | PrevPage
  | Render (framework : string)
  | DecodeCallback (callback_data : pyval).

Definition perform (self : dbutton) (o : operation) : dbutton :=
  match o with
  | SetFilters kwargs => snd (set_filters kwargs self)
  | NextPage => snd (next_page self)
  | PrevPage => snd (prev_page self)
  | Render framework => snd (build_message framework self)
  | DecodeCallback callback_data => snd (_handle_callback callback_data self)
  end.

Definition run (self : dbutton) (ops : list operation) : dbutton :=
  fold_left perform ops self.

(** The invariant of the controller state. *)
Definition page_invariant (self : dbutton) : Prop :=
  1 <= current_page self <= total_pages self /\
  total_pages self =
    Z.max 1 (ceil_div (Z.of_nat (length (apply_filters (raw_data self)
                                           (filters self))))
                      (page_size self)).

(** [callback_data] reaches [dispatch] as the dict [d]: it is the dict, or
    a string the deserializer of the instance decodes to it. *)
Definition carries (self : dbutton) (callback_data : pyval)
    (d : list (string * pyval)) : Prop :=
  callback_data = PDict d \/
  exists s, callback_data = PStr s /\ _deserialize_callback self s = Ret (PDict d).

(** The state [_refresh] leaves when the page size is not zero. *)
Definition refreshed (self : dbutton) : dbutton :=
  let shown := apply_filters (raw_data self) (filters self) in
  with_page
    (py_slice shown ((current_page self - 1) * page_size self)
       ((current_page self - 1) * page_size self + page_size self),
     Z.max 1 ((Z.of_nat (length shown) + page_size self - 1) / page_size self))
    (with_filtered shown self).

(** What the specification says [render] shows.  The text: one line per
    record of the page, the 1-based index and then the text of every
    configured field (empty when the field is missing), joined by the
    dash separator; the fixed sentence when the page is empty. *)
Definition expected_lines (self : dbutton) : list string :=
  imap
    (fun i record =>
       String.concat " — "
         (str_int (Z.of_nat i + 1)
          :: map (fun field => py_str (default (PStr "") (record !! field)))
                 (fields self)))
    (page_data self).

Definition expected_text (self : dbutton) : string :=
  match page_data self with
  | [] => "No data available."
  | _ :: _ => String.concat newline (expected_lines self)
  end.

(** The grid: one row per record of the page with one numbered button,
    whose token is [detail] with the 0-based place and the current page. *)
Definition expected_rows (class : sdk) (self : dbutton)
  : list (list InlineKeyboardButton) :=
  imap
    (fun i _ =>
       [ {| button_class := class; text := str_int (Z.of_nat i + 1);
            callback_data :=
              _serialize_callback self
                (detail_token (Z.of_nat i) (current_page self)) |} ])
    (page_data self).

(** The navigation row: "prev" unless on the first page, "next" unless on
    the last page, and no row at all when neither applies. *)
Definition expected_navigation (class : sdk) (self : dbutton)
  : list (list InlineKeyboardButton) :=
  let prev :=
    {| button_class := class; text := "«";
       callback_data :=
         _serialize_callback self (PDict [("action", PStr "prev")]) |} in
  let next :=
    {| button_class := class; text := "»";
       callback_data :=
         _serialize_callback self (PDict [("action", PStr "next")]) |} in
  if decide (current_page self > 1) then
    if decide (current_page self < total_pages self)
    then [[prev; next]] else [[prev]]
  else
    if decide (current_page self < total_pages self) then [[next]] else [].

(** A small instance used to exercise the statements below: three
    records shown two to a page, standing on the first page. *)
Definition sample_records : list (gmap string pyval) :=
  [ {[ "name" := PStr "Ann" ]}; {[ "name" := PStr "Bob" ]};
    {[ "name" := PStr "Cy" ]} ].

Definition sample : dbutton :=
  {| raw_data := sample_records; fields := ["name"]; page_size := 2;
     filters := ∅; current_page := 1;
     _serialize_callback := Json.dumps;
     _deserialize_callback := Json.loads;
     _handlers :=
       {[ "python-telegram-bot" := {| button := Telegram; markup := Telegram |} ]};
     filtered := sample_records;
     page_data := [ {[ "name" := PStr "Ann" ]}; {[ "name" := PStr "Bob" ]} ];
     total_pages := 2;
     selected_item := None |}.

(** The text after an integer literal does not continue the number. *)
Definition ends_number (rest : string) : bool :=
  match rest with
  | EmptyString => true
  | String c _ =>
      negb (Json.is_digit c || Ascii.eqb c "."%char || Ascii.eqb c "e"%char
            || Ascii.eqb c "E"%char)
  end.

(** The text [s] between double quotes, followed by [rest]. *)
Definition quoted (s rest : string) : string :=
  String dquote (s +:+ String dquote rest).

(** A decimal numeral that starts with a digit other than zero. *)
Definition nonzero_head (d : uint) : bool :=
  match d with
  | Nil | D0 _ => false
  | _ => true
  end.

(** ** Further vocabulary *)

(** The computed attributes of an instance are what [_refresh] computes
    from its data, filters and page. *)
Definition in_sync (self : dbutton) : Prop :=
  filtered self = apply_filters (raw_data self) (filters self) /\
  paginate (filtered self) (current_page self) (page_size self)
    = Ret (page_data self, total_pages self).

(** The codec of an instance gives every callback token back. *)
Definition codec_round_trips (self : dbutton) : Prop :=
  forall token,
    valid_token token ->
    _deserialize_callback self (_serialize_callback self token) = Ret token.

(** The handlers [_init_framework_handlers] registers when [installed]
    tells which SDKs can be imported. *)
Definition registered (installed : sdk -> bool) : gmap string handler :=
  (if installed Pyrogram
   then <["pyrogram" := {| button := Pyrogram; markup := Pyrogram |}]>
   else id)
    ((if installed Aiogram
      then <["aiogram" := {| button := Aiogram; markup := Aiogram |}]>
      else id)
       ((if installed Telegram
         then <["python-telegram-bot" :=
                  {| button := Telegram; markup := Telegram |}]>
         else id) ∅)).

(** What no operation changes: the data, the field names, the page size,
    the codec and the registered handlers. *)
Definition same_setup (a b : dbutton) : Prop :=
  raw_data a = raw_data b /\ fields a = fields b /\
  page_size a = page_size b /\
  _serialize_callback a = _serialize_callback b /\
  _deserialize_callback a = _deserialize_callback b /\
  _handlers a = _handlers b.

(** ** The legacy entry point [dbutton.handle_callback]

    Modelled from the spec: the update and callback-query objects of
    python-telegram-bot are outside the repository.  Of an update the
    method reads [update.callback_query], which may be missing or empty
    ([None] here), and of the query its [data], the string of the pressed
    button; on the query it calls [edit_message_text].  The call is
    recorded with its three keyword arguments; what the SDK does with it
    is not modelled. *)
Record CallbackQuery : Type := {
  query_data : string
}.

Record edit_message_text : Type := {
  edit_text : string;
  reply_markup : InlineKeyboardMarkup;
  parse_mode : string
}.

(** The method returns its boolean; the second component lists the calls
    it made on the query. *)
Definition handle_callback (update : option CallbackQuery)
  : method (bool * list edit_message_text) :=
  match update with
  | Some query =>
      self <- get ;;
      match _deserialize_callback self (query_data query) with
      | Ret data =>
          answer <- _handle_callback data ;;
          if fst answer then
            message <- build_message "python-telegram-bot" ;;
            ret (true,
                 [ {| edit_text := fst message; reply_markup := snd message;
                      parse_mode := "HTML" |} ])
          else ret (false, [])
      | Raise JSONDecodeError | Raise TypeError => ret (false, [])
      | Raise e => raise e
      end
  | None => ret (false, [])
  end.

(** * Properties *)

(** ** The filter and paginate engine *)

Lemma ceil_div_bounds a b :
  0 < b -> (ceil_div a b - 1) * b < a <= ceil_div a b * b.
Proof.
  intros Hb. unfold ceil_div.
  pose proof (Z.div_mod (- a) b ltac:(lia)) as Hdm.
  pose proof (Z.mod_pos_bound (- a) b Hb) as Hr.
  nia.
Qed.

Lemma ceil_div_unique a b q :
  0 < b -> (q - 1) * b < a <= q * b -> ceil_div a b = q.
Proof.
  intros Hb Hq. pose proof (ceil_div_bounds a b Hb) as Hc. nia.
Qed.

Lemma round_up_div_ceil n b : 0 < b -> (n + b - 1) / b = ceil_div n b.
Proof.
  intros Hb. symmetry. apply ceil_div_unique; [done|].
  pose proof (Z.div_mod (n + b - 1) b ltac:(lia)) as Hdm.
  pose proof (Z.mod_pos_bound (n + b - 1) b Hb) as Hr.
  nia.
Qed.

Lemma page_total_ceil n b :
  0 <= n -> b <> 0 -> b <> -1 ->
  Z.max 1 ((n + b - 1) / b) = Z.max 1 (ceil_div n b).
Proof.
  intros Hn Hz Hm. destruct (Z.lt_trichotomy b 0) as [Hneg | [-> | Hpos]];
    [|done|by rewrite round_up_div_ceil].
  assert (Hq : (n + b - 1) / b <= 1).
  { pose proof (Z.div_mod (n + b - 1) b Hz) as Hdm.
    pose proof (Z.mod_neg_bound (n + b - 1) b Hneg) as Hr. nia. }
  assert (Hc : ceil_div n b <= 0).
  { unfold ceil_div.
    pose proof (Z.div_mod (- n) b Hz) as Hdm.
    pose proof (Z.mod_neg_bound (- n) b Hneg) as Hr. nia. }
  lia.
Qed.

Section slices.
Context {A : Type}.
Implicit Types l : list A.

Lemma take_drop_lookup l (k m i : nat) :
  take k (drop m l) !! i = if decide (i < k)%nat then l !! (m + i)%nat else None.
Proof. rewrite lookup_take. case_decide; [apply lookup_drop | done]. Qed.

Lemma py_slice_lookup l a b (i : nat) :
  py_slice l a b !! i =
    let n := Z.of_nat (length l) in
    if decide (slice_index n a + Z.of_nat i < slice_index n b)
    then l !! (Z.to_nat (slice_index n a) + i)%nat else None.
Proof.
  unfold py_slice. cbv zeta. rewrite take_drop_lookup.
  repeat case_decide; try done; lia.
Qed.
End slices.

Section paginate_facts.
Context {A : Type}.
Implicit Types records : list A.

Lemma window_lookup records a b (i : nat) :
  window records a b !! i =
    let n := Z.of_nat (length records) in
    if decide (clamp n a + Z.of_nat i < clamp n b)
    then records !! (Z.to_nat (clamp n a) + i)%nat else None.
Proof.
  unfold window, clamp. cbv zeta. rewrite take_drop_lookup.
  repeat case_decide; try done; lia.
Qed.

Lemma py_slice_window records a b :
  0 <= a -> 0 <= b -> py_slice records a b = window records a b.
Proof.
  intros Ha Hb. apply list_eq. intros i.
  rewrite py_slice_lookup, window_lookup. cbv zeta.
  unfold slice_index, clamp.
  destruct (Z.ltb_spec a 0), (Z.ltb_spec b 0); try lia.
  repeat case_decide; try done; try lia.
  f_equal. lia.
Qed.

Lemma py_slice_from_end records a b :
  a < 0 -> b < 0 ->
  py_slice records a b =
    window records (Z.of_nat (length records) + a) (Z.of_nat (length records) + b).
Proof.
  intros Ha Hb. apply list_eq. intros i.
  rewrite py_slice_lookup, window_lookup. cbv zeta.
  unfold slice_index, clamp.
  destruct (Z.ltb_spec a 0), (Z.ltb_spec b 0); try lia.
  repeat case_decide; try done; try lia.
  f_equal. lia.
Qed.

Lemma py_slice_empty records a b :
  slice_index (Z.of_nat (length records)) b
    <= slice_index (Z.of_nat (length records)) a ->
  py_slice records a b = [].
Proof.
  intros H. unfold py_slice. cbv zeta.
  replace (Z.to_nat _) with 0%nat by lia. apply take_0.
Qed.

Lemma paginate_returns records page page_size :
  page_size <> 0 ->
  paginate records page page_size =
    Ret (py_slice records ((page - 1) * page_size)
           ((page - 1) * page_size + page_size),
         Z.max 1 ((Z.of_nat (length records) + page_size - 1) / page_size)).
Proof. intros H. unfold paginate. by rewrite decide_False. Qed.

Lemma page_slice_take_drop records page page_size :
  0 < page_size -> 1 <= page ->
  page_slice records page page_size =
    take (Z.to_nat page_size)
         (drop (Z.to_nat ((page - 1) * page_size)) records).
Proof.
  intros Hs Hp. unfold page_slice.
  rewrite paginate_returns by lia.
  apply list_eq. intros i.
  rewrite py_slice_lookup, take_drop_lookup. cbv zeta.
  unfold slice_index.
  destruct (Z.ltb_spec ((page - 1) * page_size) 0); [nia|].
  destruct (Z.ltb_spec ((page - 1) * page_size + page_size) 0); [nia|].
  repeat case_decide; try done; try lia.
  - f_equal. lia.
  - symmetry. apply lookup_ge_None. lia.
Qed.

Lemma page_count_eq records page_size :
  0 < page_size ->
  page_count records page_size =
    Z.max 1 (ceil_div (Z.of_nat (length records)) page_size).
Proof.
  intros Hs. unfold page_count. rewrite paginate_returns by lia.
  by rewrite round_up_div_ceil.
Qed.

Lemma pages_prefix records page_size (k : nat) :
  0 < page_size ->
  concat (map (fun p => page_slice records p page_size) (seqZ 1 (Z.of_nat k)))
    = take (k * Z.to_nat page_size) records.
Proof.
  intros Hs. induction k as [|k IH].
  - done.
  - rewrite seqZ_S, map_app, concat_app, IH. simpl.
    rewrite app_nil_r, page_slice_take_drop by lia.
    replace (Z.to_nat ((1 + Z.of_nat k - 1) * page_size))
      with (k * Z.to_nat page_size)%nat by nia.
    rewrite take_take_drop. f_equal. lia.
Qed.
End paginate_facts.

(** C3, amended: for a positive page size [paginate] returns without error,
    with [total_pages = max(1, ceil(len(records) / page_size))]; for every
    page from 0 upwards the slice is the part of the records from
    [(page-1)*page_size] to [(page-1)*page_size + page_size] clamped to the
    bounds of the sequence; it is empty for page 0 and for every page above
    [total_pages]; a negative page is counted from the end of the list: its
    slice is the clamped part from [len + start] to [len + end]. *)
Theorem paginate_pages {A : Type} (records : list A) (page page_size : Z) :
  0 < page_size ->
  let n := Z.of_nat (length records) in
  let total := Z.max 1 (ceil_div n page_size) in
  let start := (page - 1) * page_size in
  exists slice,
    paginate records page page_size = Ret (slice, total) /\
    (0 <= page -> slice = window records start (start + page_size)) /\
    (page = 0 \/ total < page -> slice = []) /\
    (page < 0 ->
     slice = window records (n + start) (n + (start + page_size))).
Proof.
  intros Hs n total start.
  exists (py_slice records start (start + page_size)).
  split; [|split; [|split]].
  - rewrite paginate_returns by lia. subst total.
    by rewrite round_up_div_ceil.
  - intros Hp. destruct (decide (page = 0)) as [->|Hne].
    + subst start. apply list_eq. intros i.
      rewrite py_slice_lookup, window_lookup. cbv zeta.
      unfold slice_index, clamp.
      destruct (Z.ltb_spec ((0 - 1) * page_size) 0); [|lia].
      destruct (Z.ltb_spec ((0 - 1) * page_size + page_size) 0); [lia|].
      repeat case_decide; try done; lia.
    + apply py_slice_window; subst start; nia.
  - intros Hout. apply py_slice_empty. subst start total. fold n.
    pose proof (ceil_div_bounds n page_size Hs) as Hc.
    unfold slice_index.
    destruct Hout as [-> | Hgt].
    + destruct (Z.ltb_spec ((0 - 1) * page_size) 0); [|lia].
      destruct (Z.ltb_spec ((0 - 1) * page_size + page_size) 0); lia.
    + destruct (Z.ltb_spec ((page - 1) * page_size) 0); [nia|].
      destruct (Z.ltb_spec ((page - 1) * page_size + page_size) 0); [nia|].
      nia.
  - intros Hneg. apply py_slice_from_end; subst start; nia.
Qed.

Lemma paginate_pages_witness :
  exists slice,
    paginate [10; 20; 30; 40; 50] 2 2 = Ret (slice, 3) /\ slice = [30; 40].
Proof.
  destruct (paginate_pages [10; 20; 30; 40; 50] 2 2 ltac:(lia))
    as (slice & Hret & Hwin & _ & _).
  exists slice. split; [exact Hret|].
  rewrite Hwin by lia. reflexivity.
Defined.

Lemma paginate_negative_page :
  paginate [1; 2; 3; 4; 5; 6; 7; 8; 9; 10; 11; 12] (-1) 5
    = Ret ([3; 4; 5; 6; 7], 3) /\
  ~ (1 <= -1 <= 3) /\
  [3; 4; 5; 6; 7] <> @nil Z /\
  window [1; 2; 3; 4; 5; 6; 7; 8; 9; 10; 11; 12] ((-1 - 1) * 5) ((-1 - 1) * 5 + 5)
    = @nil Z.
Proof. repeat split; [lia | discriminate]. Qed.

Lemma length_concat_sum {A : Type} (ls : list (list A)) :
  length (concat ls) = sum_list (map length ls).
Proof.
  induction ls as [|l ls IH]; [done|].
  simpl. rewrite length_app. by rewrite IH.
Qed.

(** C5: for a positive page size the slices of the pages 1..total_pages
    partition the records: concatenated in page order they give the records
    back, their lengths sum to the number of records, every entry of a page
    is the record at its own position, and the positions of an earlier page
    all lie before those of a later page. *)
Theorem pages_partition {A : Type} (records : list A) (page_size : Z) :
  0 < page_size ->
  let pages := seqZ 1 (page_count records page_size) in
  concat (map (fun p => page_slice records p page_size) pages) = records /\
  sum_list (map (fun p => length (page_slice records p page_size)) pages)
    = length records /\
  (forall p (i : nat),
     1 <= p -> (i < length (page_slice records p page_size))%nat ->
     page_slice records p page_size !! i
       = records !! position page_size p i) /\
  (forall p q (i j : nat),
     1 <= p -> p < q ->
     (i < length (page_slice records p page_size))%nat ->
     (j < length (page_slice records q page_size))%nat ->
     (position page_size p i < position page_size q j)%nat).
Proof.
  intros Hs pages.
  assert (Hcat : concat (map (fun p => page_slice records p page_size) pages)
                 = records).
  { subst pages. rewrite page_count_eq by done.
    set (n := Z.of_nat (length records)).
    pose proof (ceil_div_bounds n page_size Hs) as Hc.
    rewrite <- (Z2Nat.id (Z.max 1 (ceil_div n page_size))) by lia.
    rewrite pages_prefix by done.
    apply take_ge. subst n. nia. }
  split; [exact Hcat|]. split; [|split].
  - transitivity
      (length (concat (map (fun p => page_slice records p page_size) pages)));
      [|by rewrite Hcat].
    by rewrite length_concat_sum, map_map.
  - intros p i Hp Hi. rewrite page_slice_take_drop in * by lia.
    rewrite take_drop_lookup. rewrite length_take in Hi.
    rewrite decide_True by lia. done.
  - intros p q i j Hp Hpq Hi Hj.
    rewrite page_slice_take_drop in Hi by lia.
    rewrite length_take, length_drop in Hi.
    unfold position. nia.
Qed.

Lemma pages_partition_witness :
  concat (map (fun p => page_slice [10; 20; 30; 40; 50] p 2) [1; 2; 3])
    = [10; 20; 30; 40; 50].
Proof. exact (proj1 (pages_partition [10; 20; 30; 40; 50] 2 ltac:(lia))). Defined.

Lemma filters_match_Forall item items :
  filters_match item items = true <->
  Forall (fun kv => lower (py_str (default (PStr "") (item !! kv.1)))
                    = lower (py_str kv.2)) items.
Proof.
  induction items as [|[key val] rest IH]; simpl.
  - split; [constructor | done].
  - destruct (String.eqb_spec
                (lower (py_str (default (PStr "") (item !! key))))
                (lower (py_str val))) as [Heq|Hne]; simpl.
    + rewrite IH. split; [by constructor | by inversion 1].
    + split; [done | inversion 1; contradiction].
Qed.

Lemma filters_match_passes filters item :
  filters_match item (map_to_list filters) = true <-> passes filters item.
Proof.
  rewrite filters_match_Forall. unfold passes.
  rewrite map_Forall_to_list.
  apply Forall_proper; [|done]. by intros [k v].
Qed.

Lemma filter_loop filters (data acc : list (gmap string pyval)) :
  fold_left
    (fun result item =>
       if filters_match item (map_to_list filters)
       then result ++ [item] else result)
    data acc
  = acc ++ filter (passes filters) data.
Proof.
  revert acc. induction data as [|item data IH]; intros acc; simpl.
  - by rewrite app_nil_r.
  - rewrite IH. destruct (filters_match item (map_to_list filters)) eqn:Hm.
    + rewrite filter_cons_True by by apply filters_match_passes.
      by rewrite <- app_assoc.
    + rewrite filter_cons_False; [done|].
      intros Hp. apply filters_match_passes in Hp. congruence.
Qed.


(** ** The controller *)

Lemma refresh_returns self :
  page_size self <> 0 -> _refresh self = (Ret tt, refreshed self).
Proof.
  intros Hs. unfold _refresh, bind, get, assign, lift, refreshed. simpl.
  by rewrite paginate_returns.
Qed.

Lemma refresh_raises self :
  page_size self = 0 ->
  _refresh self =
    (Raise ZeroDivisionError,
     with_filtered (apply_filters (raw_data self) (filters self)) self).
Proof.
  intros Hs. unfold _refresh, bind, get, assign, lift. simpl.
  unfold paginate. by rewrite decide_True.
Qed.

Lemma init_framework_handlers_returns installed self :
  exists handlers,
    _init_framework_handlers installed self = (Ret tt, with_handlers handlers self).
Proof.
  unfold _init_framework_handlers, bind, get, assign, ret.
  destruct (installed Telegram), (installed Aiogram), (installed Pyrogram);
    simpl; try (eexists; reflexivity).
  exists (_handlers self). by destruct self.
Qed.

Lemma init_cases installed data_source names size chosen ser deser :
  let start :=
    {| raw_data := data_source; fields := names; page_size := size;
       filters := default ∅ chosen; current_page := 1;
       _serialize_callback := default Json.dumps ser;
       _deserialize_callback := default Json.loads deser;
       _handlers := ∅; filtered := []; page_data := []; total_pages := 0;
       selected_item := None |} in
  let built := __init__ installed data_source names size chosen ser deser in
  ((10 < length names)%nat /\
   built = Raise (ValueError "Maximum 10 fields allowed")) \/
  ((length names <= 10)%nat /\ size = 0 /\ built = Raise ZeroDivisionError) \/
  ((length names <= 10)%nat /\ size <> 0 /\
   exists handlers, built = Ret (with_handlers handlers (refreshed start))).
Proof.
  intros start built. subst built. unfold __init__.
  case_decide as Hlen; [left; done|]. right. fold start.
  destruct (decide (size = 0)) as [Hz|Hnz].
  - left. unfold bind. rewrite refresh_raises by done. split; [lia|done].
  - right. unfold bind. rewrite refresh_returns by done.
    destruct (init_framework_handlers_returns installed (refreshed start))
      as [handlers ->].
    split; [lia|]. split; [done|]. by exists handlers.
Qed.

(** C10: the constructor raises its validation error exactly when more
    than ten field names are given, and for a page size that is not zero
    this is its only failure; every instance it returns has
    [current_page = 1], the given filter set (the empty one when none is
    given), no selected item, and the attributes computed by [_refresh]:
    [filtered] is the filtered data and [page_data], [total_pages] are what
    [paginate] returns for page 1. *)
Theorem construction installed data_source names size chosen ser deser :
  let built := __init__ installed data_source names size chosen ser deser in
  ((exists msg, built = Raise (ValueError msg)) <-> (10 < length names)%nat) /\
  (size <> 0 -> ((exists e, built = Raise e) <-> (10 < length names)%nat)) /\
  (forall self,
     built = Ret self ->
     current_page self = 1 /\
     filters self = default ∅ chosen /\
     selected_item self = None /\
     raw_data self = data_source /\
     fields self = names /\
     page_size self = size /\
     filtered self = apply_filters data_source (default ∅ chosen) /\
     paginate (filtered self) 1 size = Ret (page_data self, total_pages self)).
Proof.
  intros built.
  destruct (init_cases installed data_source names size chosen ser deser)
    as [(Hlen & Hb) | [(Hlen & Hz & Hb) | (Hlen & Hnz & handlers & Hb)]];
    fold built in Hb; rewrite Hb.
  - split; [|split].
    + split; [done | eauto].
    + intros _. split; [done | eauto].
    + discriminate.
  - split; [|split].
    + split; [intros [msg Hm]; discriminate | lia].
    + done.
    + discriminate.
  - split; [|split].
    + split; [intros [msg Hm]; discriminate | lia].
    + intros _. split; [intros [e He]; discriminate | lia].
    + intros self [= <-]. simpl. repeat split; try done.
      by rewrite paginate_returns.
Qed.

Lemma construction_witness :
  exists self,
    __init__ (fun _ => true) [{[ "name" := PStr "Ann" ]}] ["name"] 20 None None None
      = Ret self /\
    current_page self = 1 /\ filters self = ∅ /\ selected_item self = None.
Proof.
  pose proof (construction (fun _ => true) [{[ "name" := PStr "Ann" ]}]
                ["name"] 20 None None None) as (_ & Hfail & Hstate).
  destruct (__init__ _ _ _ _ _ _ _) as [self|e] eqn:Hbuilt.
  - exists self. destruct (Hstate self eq_refl) as (H1 & H2 & H3 & _).
    repeat split; assumption.
  - exfalso. assert (10 < length ["name"])%nat as Hlen; [|simpl in Hlen; lia].
    apply Hfail; [lia | by exists e].
Defined.

Lemma next_page_moves self :
  page_size self <> 0 -> current_page self < total_pages self ->
  next_page self =
    (Ret true, refreshed (with_current_page (current_page self + 1) self)).
Proof.
  intros Hs Hlt. unfold next_page, bind, get, assign, ret.
  rewrite decide_True by done. by rewrite refresh_returns.
Qed.

Lemma next_page_stays self :
  ~ current_page self < total_pages self -> next_page self = (Ret false, self).
Proof.
  intros Hlt. unfold next_page, bind, get, ret. by rewrite decide_False.
Qed.

Lemma prev_page_moves self :
  page_size self <> 0 -> current_page self > 1 ->
  prev_page self =
    (Ret true, refreshed (with_current_page (current_page self - 1) self)).
Proof.
  intros Hs Hlt. unfold prev_page, bind, get, assign, ret.
  rewrite decide_True by done. by rewrite refresh_returns.
Qed.

Lemma prev_page_stays self :
  ~ current_page self > 1 -> prev_page self = (Ret false, self).
Proof.
  intros Hlt. unfold prev_page, bind, get, ret. by rewrite decide_False.
Qed.

Lemma handle_callback_carried self callback_data d :
  carries self callback_data d ->
  _handle_callback callback_data self = dispatch (PDict d) self.
Proof.
  intros [-> | (s & -> & Hs)]; [done|].
  unfold _handle_callback, bind, get. by rewrite Hs.
Qed.

Lemma dispatch_next self d :
  dict_get d "action" = Some (PStr "next") ->
  dispatch (PDict d) self =
    (moved <- next_page ;;
     if moved then ret (true, "Next page")
     else ret (false, "Already on last page")) self.
Proof. intros Ha. unfold dispatch. by rewrite Ha. Qed.

Lemma dispatch_prev self d :
  dict_get d "action" = Some (PStr "prev") ->
  dispatch (PDict d) self =
    (moved <- prev_page ;;
     if moved then ret (true, "Previous page")
     else ret (false, "Already on first page")) self.
Proof. intros Ha. unfold dispatch. by rewrite Ha. Qed.

(** C6: [next_page] returns true and moves to the next page (which is
    then recomputed) exactly when [current_page < total_pages], and
    otherwise returns false and leaves the instance as it is; [prev_page]
    does the same under the guard [current_page > 1]; a callback whose
    action is "next" or "prev" reports the move or the refusal with the
    four fixed messages. *)
Theorem page_navigation self :
  page_size self <> 0 ->
  let forward := refreshed (with_current_page (current_page self + 1) self) in
  let backward := refreshed (with_current_page (current_page self - 1) self) in
  current_page forward = current_page self + 1 /\
  current_page backward = current_page self - 1 /\
  (current_page self < total_pages self ->
   next_page self = (Ret true, forward)) /\
  (~ current_page self < total_pages self ->
   next_page self = (Ret false, self)) /\
  (current_page self > 1 -> prev_page self = (Ret true, backward)) /\
  (~ current_page self > 1 -> prev_page self = (Ret false, self)) /\
  (forall callback_data d,
     carries self callback_data d ->
     dict_get d "action" = Some (PStr "next") ->
     _handle_callback callback_data self =
       if decide (current_page self < total_pages self)
       then (Ret (true, "Next page"), forward)
       else (Ret (false, "Already on last page"), self)) /\
  (forall callback_data d,
     carries self callback_data d ->
     dict_get d "action" = Some (PStr "prev") ->
     _handle_callback callback_data self =
       if decide (current_page self > 1)
       then (Ret (true, "Previous page"), backward)
       else (Ret (false, "Already on first page"), self)).
Proof.
  intros Hs forward backward.
  repeat split; try done.
  - by apply next_page_moves.
  - by apply next_page_stays.
  - by apply prev_page_moves.
  - by apply prev_page_stays.
  - intros callback_data d Hc Ha.
    rewrite (handle_callback_carried _ _ _ Hc), (dispatch_next _ _ Ha).
    unfold bind. case_decide.
    + by rewrite next_page_moves.
    + by rewrite next_page_stays.
  - intros callback_data d Hc Ha.
    rewrite (handle_callback_carried _ _ _ Hc), (dispatch_prev _ _ Ha).
    unfold bind. case_decide.
    + by rewrite prev_page_moves.
    + by rewrite prev_page_stays.
Qed.

Lemma sample_constructed :
  __init__ (fun framework => match framework with Telegram => true | _ => false end)
    sample_records ["name"] 2 None None None = Ret sample.
Proof. reflexivity. Qed.

Lemma page_navigation_witness :
  next_page sample = (Ret true, refreshed (with_current_page 2 sample)) /\
  _handle_callback (PDict [("action", PStr "prev")]) sample
    = (Ret (false, "Already on first page"), sample).
Proof.
  destruct (page_navigation sample ltac:(discriminate))
    as (_ & _ & Hnext & _ & _ & _ & _ & Hprev).
  split.
  - apply Hnext. reflexivity.
  - exact (Hprev (PDict [("action", PStr "prev")]) [("action", PStr "prev")]
             (or_introl eq_refl) eq_refl).
Defined.

Lemma dispatch_detail self d :
  dict_get d "action" = Some (PStr "detail") ->
  dispatch (PDict d) self =
    (let index := default (PInt 0) (dict_get d "index") in
     match as_int index with
     | None => raise TypeError
     | Some i =>
         self <- get ;;
         if decide (0 <= i < Z.of_nat (length (page_data self))) then
           match page_data self !! Z.to_nat i with
           | Some record =>
               assign (with_selected_item record) ;;
               ret (true, "Selected item " +:+ py_str index)
           | None => raise (OtherError "IndexError")
           end
         else ret (false, "Invalid item index")
     end) self.
Proof. intros Ha. unfold dispatch. by rewrite Ha. Qed.



Lemma invariant_refreshed self :
  page_size self <> 0 -> page_size self <> -1 ->
  1 <= current_page self
    <= Z.max 1 (ceil_div (Z.of_nat (length (apply_filters (raw_data self)
                                              (filters self))))
                         (page_size self)) ->
  page_invariant (refreshed self).
Proof.
  intros Hz Hm Hp. unfold page_invariant, refreshed. simpl.
  by rewrite page_total_ceil by (done || lia).
Qed.

Lemma build_message_state framework self :
  snd (build_message framework self) = self.
Proof.
  unfold build_message, bind, get, raise, ret. simpl.
  by destruct (handler_for self framework).
Qed.

(** Whatever the payload, a callback leaves the instance as it was, as
    [next_page] or [prev_page] leave it, or with a selected item. *)
Lemma handle_callback_state callback_data self :
  let self' := snd (_handle_callback callback_data self) in
  self' = self \/ self' = snd (next_page self) \/
  self' = snd (prev_page self) \/
  exists record, self' = with_selected_item record self.
Proof.
  assert (Hd : forall data,
             let self' := snd (dispatch data self) in
             self' = self \/ self' = snd (next_page self) \/
             self' = snd (prev_page self) \/
             exists record, self' = with_selected_item record self).
  { intros data. destruct data as [| | | |l|d]; try (left; reflexivity).
    unfold dispatch.
    destruct (eq_str _ "next").
    { right; left. unfold bind. by destruct (next_page self) as [[[]|e] s]. }
    destruct (eq_str _ "prev").
    { right; right; left. unfold bind.
      by destruct (prev_page self) as [[[]|e] s]. }
    destruct (eq_str _ "detail"); [|left; reflexivity].
    cbv zeta. destruct (as_int _) as [i|]; [|left; reflexivity].
    unfold bind, get, assign, ret, raise.
    case_decide; [|left; reflexivity].
    destruct (page_data self !! Z.to_nat i) as [record|]; [|left; reflexivity].
    right; right; right. by exists record. }
  destruct callback_data as [| | |s|l|d]; try apply Hd.
  unfold _handle_callback, bind, get.
  destruct (_deserialize_callback self s) as [data|e]; [apply Hd|].
  destruct e; left; reflexivity.
Qed.

Lemma perform_invariant self o :
  page_size self <> 0 -> page_size self <> -1 -> page_invariant self ->
  page_size (perform self o) = page_size self /\ page_invariant (perform self o).
Proof.
  intros Hz Hm [Hpage Htotal].
  assert (Hnext : page_size (snd (next_page self)) = page_size self /\
                  page_invariant (snd (next_page self))).
  { destruct (decide (current_page self < total_pages self)).
    - rewrite next_page_moves by done. split; [done|].
      apply invariant_refreshed; [done|done|]. simpl. lia.
    - rewrite next_page_stays by done. done. }
  assert (Hprev : page_size (snd (prev_page self)) = page_size self /\
                  page_invariant (snd (prev_page self))).
  { destruct (decide (current_page self > 1)).
    - rewrite prev_page_moves by done. split; [done|].
      apply invariant_refreshed; [done|done|]. simpl. lia.
    - rewrite prev_page_stays by done. done. }
  destruct o as [kwargs| | |framework|callback_data]; simpl.
  - unfold set_filters, bind, assign. rewrite refresh_returns by done.
    split; [done|]. apply invariant_refreshed; [done|done|]. simpl. lia.
  - exact Hnext.
  - exact Hprev.
  - by rewrite build_message_state.
  - destruct (handle_callback_state callback_data self)
      as [-> | [-> | [-> | [record ->]]]]; done.
Qed.

(** C2, amended: after construction with a page size other than -1, so
    with every positive page size, and after any sequence of
    [set_filters], [next_page], [prev_page], [build_message] and
    [_handle_callback], the instance satisfies
    [1 <= current_page <= total_pages] and
    [total_pages = max(1, ceil(filtered_count / page_size))], where
    [filtered_count] is the number of records [apply_filters] keeps. *)
Theorem invariant_maintained installed data_source names size chosen ser deser
    self ops :
  size <> -1 ->
  __init__ installed data_source names size chosen ser deser = Ret self ->
  page_invariant (run self ops).
Proof.
  intros Hm Hinit.
  assert (Hstart : page_size self <> 0 /\ page_size self <> -1 /\
                   page_invariant self).
  { destruct (init_cases installed data_source names size chosen ser deser)
      as [(_ & Hb) | [(_ & _ & Hb) | (_ & Hz & handlers & Hb)]];
      rewrite Hinit in Hb; try discriminate.
    injection Hb as ->. split; [done|]. split; [done|].
    unfold page_invariant. simpl. rewrite page_total_ceil by (done || lia). lia. }
  clear Hinit. revert self Hstart. unfold run.
  induction ops as [|o ops IH]; intros self (Hz & Hm' & Hinv); [done|].
  simpl. apply IH.
  destruct (perform_invariant self o Hz Hm' Hinv) as [Heq Hinv'].
  rewrite Heq. done.
Qed.

Lemma invariant_maintained_witness :
  page_invariant
    (run sample
       [NextPage; DecodeCallback (PStr "null"); NextPage; Render "aiogram";
        SetFilters {[ "name" := PStr "bob" ]}; PrevPage;
        DecodeCallback (PDict [("action", PStr "detail")])]).
Proof.
  apply (invariant_maintained
           (fun framework => match framework with Telegram => true | _ => false end)
           sample_records ["name"] 2 None None None).
  - discriminate.
  - reflexivity.
Defined.

(** The invariant does not hold for page size -1: with no
    records the constructor returns an instance that counts two pages,
    where [max(1, ceil(0 / -1))] is 1. *)
Lemma negative_page_size_pages :
  exists self,
    __init__ (fun _ => true) [] ["name"] (-1) None None None = Ret self /\
    total_pages self = 2 /\
    Z.max 1 (ceil_div (Z.of_nat (length (apply_filters (raw_data self)
                                           (filters self))))
                      (page_size self)) = 1 /\
    ~ page_invariant (run self []).
Proof.
  eexists. split; [reflexivity|]. split; [reflexivity|]. split; [reflexivity|].
  intros [_ Htotal]. discriminate Htotal.
Qed.

Lemma enumerate_imap {A B : Type} (f : Z -> A -> B) (k : Z) (l : list A) :
  map (fun '(idx, x) => f idx x) (enumerate k l)
    = imap (fun i x => f (Z.of_nat i + k) x) l.
Proof.
  revert k. induction l as [|x l IH]; intros k; [done|].
  simpl. rewrite IH. f_equal. apply imap_ext. intros i y _. simpl.
  f_equal. lia.
Qed.

Lemma seqZ_imap {A B : Type} (g : Z -> B) (k : Z) (l : list A) :
  map g (seqZ k (Z.of_nat (length l))) = imap (fun i _ => g (Z.of_nat i + k)) l.
Proof.
  revert k. induction l as [|x l IH]; intros k; [done|].
  rewrite seqZ_cons by (simpl; lia). simpl.
  replace (Z.pred (Z.of_nat (S (length l)))) with (Z.of_nat (length l)) by lia.
  rewrite IH. f_equal. apply imap_ext. intros i y _. simpl. f_equal. lia.
Qed.

Lemma concat_starts sep c x xs :
  exists rest, String.concat sep (String c x :: xs) = String c rest.
Proof. destruct xs; simpl; eauto. Qed.

Lemma first_line_starts names record :
  exists rest, message_line names 1 record = String "1" rest.
Proof. unfold message_line. change (str_int 1) with "1". apply concat_starts. Qed.

Lemma joined_lines_nonempty names record records :
  String.eqb
    (String.concat newline
       (map (fun '(idx, r) => message_line names idx r)
            (enumerate 1 (record :: records))))
    "" = false.
Proof.
  cbn [enumerate map].
  destruct (first_line_starts names record) as [rest ->].
  by destruct (concat_starts newline "1" rest
                 (map (fun '(idx, r) => message_line names idx r)
                      (enumerate (1 + 1) records))) as [rest' ->].
Qed.

(** C8, amended: when a handler is registered for the requested framework,
    or failing that for python-telegram-bot, [build_message] returns the
    text and the grid the specification describes (one line and one button
    row per record of the page, then the navigation row), built with the
    classes of that handler; when none is registered it raises
    [ValueError].  In both cases the instance is left as it is. *)
Theorem build_message_renders self framework :
  length (expected_lines self) = length (page_data self) /\
  length (expected_rows Telegram self) = length (page_data self) /\
  (forall handler,
     handler_for self framework = Some handler ->
     build_message framework self =
       (Ret (expected_text self,
             {| markup_class := markup handler;
                inline_keyboard :=
                  expected_rows (button handler) self
                  ++ expected_navigation (button handler) self |}),
        self)) /\
  (handler_for self framework = None ->
   build_message framework self =
     (Raise (ValueError ("No handler found for framework: " +:+ framework)),
      self)).
Proof.
  split; [apply length_imap|]. split; [apply length_imap|].
  unfold build_message, bind, get, raise, ret. cbv zeta.
  split.
  - intros handler ->. do 2 f_equal. f_equal.
    + unfold expected_text, expected_lines.
      destruct (page_data self) as [|record records] eqn:Hpage; [done|].
      rewrite joined_lines_nonempty.
      by rewrite (enumerate_imap (message_line (fields self))).
    + f_equal. unfold expected_rows, expected_navigation.
      rewrite (seqZ_imap
                 (fun i =>
                    [ {| button_class := button handler; text := str_int i;
                         callback_data :=
                           _serialize_callback self
                             (detail_token (i - 1) (current_page self)) |} ])).
      assert (Hrows :
        imap (fun (i : nat) (_ : gmap string pyval) =>
                [ {| button_class := button handler;
                     text := str_int (Z.of_nat i + 1);
                     callback_data :=
                       _serialize_callback self
                         (detail_token (Z.of_nat i + 1 - 1) (current_page self)) |} ])
             (page_data self)
        = imap (fun (i : nat) (_ : gmap string pyval) =>
                [ {| button_class := button handler;
                     text := str_int (Z.of_nat i + 1);
                     callback_data :=
                       _serialize_callback self
                         (detail_token (Z.of_nat i) (current_page self)) |} ])
             (page_data self)).
      { apply imap_ext. intros i x _. simpl.
        by replace (Z.of_nat i + 1 - 1) with (Z.of_nat i) by lia. }
      rewrite Hrows.
      repeat case_decide; simpl; rewrite ?app_nil_r; done.
  - by intros ->.
Qed.

Lemma build_message_renders_witness :
  build_message "aiogram" sample =
    (Ret (expected_text sample,
          {| markup_class := Telegram;
             inline_keyboard :=
               expected_rows Telegram sample
               ++ expected_navigation Telegram sample |}),
     sample).
Proof.
  destruct (build_message_renders sample "aiogram") as (_ & _ & Hfound & _).
  exact (Hfound {| button := Telegram; markup := Telegram |} eq_refl).
Defined.

Lemma build_message_without_sdk :
  exists self,
    __init__ (fun _ => false) sample_records ["name"] 2 None None None = Ret self /\
    build_message "python-telegram-bot" self =
      (Raise (ValueError "No handler found for framework: python-telegram-bot"),
       self).
Proof. eexists. split; reflexivity. Qed.

Lemma perform_page_size self o :
  page_size self <> 0 -> page_size (perform self o) = page_size self.
Proof.
  intros Hs.
  assert (Hnext : page_size (snd (next_page self)) = page_size self).
  { destruct (decide (current_page self < total_pages self)).
    - by rewrite next_page_moves.
    - by rewrite next_page_stays. }
  assert (Hprev : page_size (snd (prev_page self)) = page_size self).
  { destruct (decide (current_page self > 1)).
    - by rewrite prev_page_moves.
    - by rewrite prev_page_stays. }
  destruct o as [kwargs| | |framework|callback_data]; simpl; try done.
  - unfold set_filters, bind, assign. by rewrite refresh_returns.
  - by rewrite build_message_state.
  - destruct (handle_callback_state callback_data self)
      as [-> | [-> | [-> | [record ->]]]]; done.
Qed.

(** Every instance reached from the constructor has a page size other
    than zero. *)
Lemma reachable_page_size installed data_source names size chosen ser deser
    self ops :
  __init__ installed data_source names size chosen ser deser = Ret self ->
  page_size (run self ops) <> 0.
Proof.
  intros Hinit.
  assert (Hstart : page_size self <> 0).
  { destruct (init_cases installed data_source names size chosen ser deser)
      as [(_ & Hb) | [(_ & _ & Hb) | (_ & Hnz & handlers & Hb)]];
      rewrite Hinit in Hb; try discriminate.
    by injection Hb as ->. }
  clear Hinit. revert self Hstart. unfold run.
  induction ops as [|o ops IH]; intros self Hs; [done|].
  simpl. apply IH. by rewrite perform_page_size.
Qed.

(** A string the deserializer rejects with [JSONDecodeError] or
    [TypeError] is answered, not raised. *)
Lemma undecodable_callback self s :
  _deserialize_callback self s = Raise JSONDecodeError \/
  _deserialize_callback self s = Raise TypeError ->
  _handle_callback (PStr s) self = (Ret (false, "Invalid callback data"), self).
Proof.
  intros [H | H]; unfold _handle_callback, bind, get; by rewrite H.
Qed.

(** C1: [_handle_callback] does raise.  A string the deserializer decodes
    to something other than a dict (the JSON text [1] under [json.loads])
    reaches [data.get] and raises [AttributeError]; a payload whose index
    is not a number reaches [0 <= index] and raises [TypeError]. *)
Theorem handle_callback_raises :
  Json.loads "1" = Ret (PInt 1) /\
  _handle_callback (PStr "1") sample = (Raise AttributeError, sample) /\
  _handle_callback (PDict [("action", PStr "detail"); ("index", PStr "2")]) sample
    = (Raise TypeError, sample).
Proof. repeat split. Qed.

(** ** The default codec *)

Import Json.

Lemma nzhead_head d : nzhead d = Nil \/ nonzero_head (nzhead d) = true.
Proof. induction d; simpl; auto. Qed.

Lemma pos_to_uint_head p : nonzero_head (Pos.to_uint p) = true.
Proof.
  assert (Hn : unorm (Pos.to_uint p) = Pos.to_uint p).
  { rewrite <- DecimalPos.Unsigned.to_of, DecimalPos.Unsigned.of_to. done. }
  pose proof (DecimalPos.Unsigned.to_uint_nonzero p) as Hz.
  unfold unorm in Hn.
  destruct (nzhead_head (Pos.to_uint p)) as [Hnil | Hhead].
  - rewrite Hnil in Hn. congruence.
  - destruct (nzhead (Pos.to_uint p)); try discriminate; by rewrite <- Hn.
Qed.

Lemma scan_digits_printed d rest :
  match rest with String c _ => is_digit c = false | EmptyString => True end ->
  scan_digits (NilEmpty.string_of_uint d +:+ rest) = (d, rest).
Proof.
  intros Hrest. induction d; simpl; try (by rewrite IHd).
  destruct rest as [|c r]; [done|]. simpl.
  unfold is_digit in Hrest. by destruct (digit_of c).
Qed.

Lemma ends_number_no_digit rest :
  ends_number rest = true ->
  match rest with String c _ => is_digit c = false | EmptyString => True end.
Proof.
  destruct rest as [|c r]; [done|]. simpl.
  destruct (is_digit c); [done | done].
Qed.

Lemma ends_number_no_float rest : ends_number rest = true -> float_tail rest = false.
Proof.
  destruct rest as [|c r]; [done|]. simpl.
  destruct (is_digit c); [done|]. simpl.
  destruct (Ascii.eqb c "."); [done|].
  destruct (Ascii.eqb c "e"); [done|].
  destruct (Ascii.eqb c "E"); done.
Qed.

Lemma scan_nat_printed p rest :
  ends_number rest = true ->
  scan_nat (NilEmpty.string_of_uint (Pos.to_uint p) +:+ rest)
    = Some (Pos.to_uint p, rest).
Proof.
  intros Hrest. pose proof (pos_to_uint_head p) as Hhead.
  pose proof (scan_digits_printed (Pos.to_uint p) rest
                (ends_number_no_digit rest Hrest)) as Hscan.
  destruct (Pos.to_uint p) as [|u|u|u|u|u|u|u|u|u|u]; try discriminate;
    simpl in *; by rewrite Hscan.
Qed.

Lemma is_digit_cases c :
  is_digit c = true ->
  is_ws c = false /\
  (forall tail, strip_prefix "Infinity" (String c tail) = None) /\
  (forall f tail,
     scan_value (S f) (String c tail) = scan_number false (String c tail)).
Proof.
  destruct c as [[] [] [] [] [] [] [] []]; try discriminate; done.
Qed.

Lemma scan_value_minus f tail :
  scan_value (S f) (String "-" tail) =
    match strip_prefix "Infinity" tail with
    | Some _ => Outside "float"
    | None => scan_number true tail
    end.
Proof. reflexivity. Qed.

Lemma printed_head p :
  exists c tail,
    NilEmpty.string_of_uint (Pos.to_uint p) = String c tail /\ is_digit c = true.
Proof.
  pose proof (pos_to_uint_head p) as Hhead.
  destruct (Pos.to_uint p); try discriminate; simpl; eauto.
Qed.

Lemma scan_number_printed negative p rest :
  ends_number rest = true ->
  scan_number negative (NilEmpty.string_of_uint (Pos.to_uint p) +:+ rest)
    = Scanned (PInt (if negative then Z.neg p else Z.pos p)) rest.
Proof.
  intros Hrest. unfold scan_number.
  rewrite scan_nat_printed, ends_number_no_float by done.
  destruct negative.
  - do 2 f_equal. exact (DecimalZ.of_to (Z.neg p)).
  - do 2 f_equal. exact (DecimalZ.of_to (Z.pos p)).
Qed.

Lemma str_int_pos p :
  str_int (Z.pos p) = NilEmpty.string_of_uint (Pos.to_uint p).
Proof.
  unfold str_int. simpl. unfold NilZero.string_of_uint.
  pose proof (pos_to_uint_head p). by destruct (Pos.to_uint p).
Qed.

Lemma str_int_neg p :
  str_int (Z.neg p) = String "-" (NilEmpty.string_of_uint (Pos.to_uint p)).
Proof.
  unfold str_int. simpl. unfold NilZero.string_of_uint.
  pose proof (pos_to_uint_head p). by destruct (Pos.to_uint p).
Qed.

Lemma append_cons c (s t : string) : String c s +:+ t = String c (s +:+ t).
Proof. reflexivity. Qed.

(** An integer literal is read back as the integer it prints. *)
Lemma scan_value_int f z rest :
  ends_number rest = true ->
  skip_ws (str_int z +:+ rest) = str_int z +:+ rest /\
  scan_value (S f) (str_int z +:+ rest) = Scanned (PInt z) rest.
Proof.
  intros Hrest. destruct z as [|p|p].
  - split; [done|]. change (str_int 0 +:+ rest) with (String "0" rest).
    destruct (is_digit_cases "0" eq_refl) as (_ & _ & Hscan).
    rewrite Hscan. unfold scan_number.
    change (scan_nat (String "0" rest)) with (Some (D0 Nil, rest)). cbv iota.
    by rewrite ends_number_no_float.
  - rewrite str_int_pos.
    destruct (printed_head p) as (c & tail & Heq & Hc).
    destruct (is_digit_cases c Hc) as (Hws & _ & Hscan).
    pose proof (scan_number_printed false p rest Hrest) as Hnum.
    rewrite Heq, ?append_cons in *.
    split.
    + cbn [skip_ws]. by rewrite Hws.
    + by rewrite Hscan.
  - rewrite str_int_neg.
    destruct (printed_head p) as (c & tail & Heq & Hc).
    destruct (is_digit_cases c Hc) as (_ & Hinf & _).
    pose proof (scan_number_printed true p rest Hrest) as Hnum.
    rewrite Heq, ?append_cons in *.
    split; [done|].
    by rewrite scan_value_minus, Hinf.
Qed.

Lemma scan_object_open f rest :
  scan_value (S f) (String "{" (String dquote rest))
    = scan_members f [] (String dquote rest).
Proof. reflexivity. Qed.

Lemma skip_ws_colon rest : skip_ws (String ":" rest) = String ":" rest.
Proof. reflexivity. Qed.

Lemma skip_ws_space rest : skip_ws (String " " rest) = skip_ws rest.
Proof. reflexivity. Qed.

Lemma scan_members_key f acc r0 :
  scan_members (S f) acc (String dquote r0) =
    match scan_string r0 with
    | Scanned key r =>
        match skip_ws r with
        | String ":" r1 =>
            match scan_value f (skip_ws r1) with
            | Scanned v r2 =>
                match skip_ws r2 with
                | String c2 r3 =>
                    if Ascii.eqb c2 "}"
                    then Scanned (PDict (dict_set acc key v)) r3
                    else if Ascii.eqb c2 ","
                         then scan_members f (dict_set acc key v) (skip_ws r3)
                         else Malformed
                | EmptyString => Malformed
                end
            | other => other
            end
        | _ => Malformed
        end
    | Malformed => Malformed
    | Outside w => Outside w
    | Exhausted => Exhausted
    end.
Proof.
  cbn [scan_members]. change (Ascii.eqb dquote dquote) with true. cbv iota.
  destruct (scan_string r0) as [key r| | |]; try reflexivity.
  destruct (skip_ws r) as [|c r1]; [reflexivity|].
  destruct c as [[] [] [] [] [] [] [] []]; reflexivity.
Qed.

Lemma scan_member_more f acc r0 key r1 v r3 :
  scan_string r0 = Scanned key (String ":" (String " " r1)) ->
  skip_ws r1 = r1 ->
  scan_value f r1 = Scanned v (String "," (String " " (String dquote r3))) ->
  scan_members (S f) acc (String dquote r0)
    = scan_members f (dict_set acc key v) (String dquote r3).
Proof.
  intros Hkey Hws Hval. rewrite scan_members_key, Hkey.
  rewrite skip_ws_colon, skip_ws_space, Hws, Hval. reflexivity.
Qed.

Lemma scan_member_last f acc r0 key r1 v r3 :
  scan_string r0 = Scanned key (String ":" (String " " r1)) ->
  skip_ws r1 = r1 ->
  scan_value f r1 = Scanned v (String "}" r3) ->
  scan_members (S f) acc (String dquote r0)
    = Scanned (PDict (dict_set acc key v)) r3.
Proof.
  intros Hkey Hws Hval. rewrite scan_members_key, Hkey.
  rewrite skip_ws_colon, skip_ws_space, Hws, Hval. reflexivity.
Qed.

Lemma append_assoc (s t u : string) : (s +:+ t) +:+ u = s +:+ (t +:+ u).
Proof. induction s as [|c s IH]; [done|]. by rewrite !append_cons, IH. Qed.

Lemma dumps_detail index page :
  dumps (detail_token index page) =
    String "{"
      (quoted "action" (": " +:+ quoted "detail" (", " +:+
         quoted "index" (": " +:+ str_int index +:+ ", " +:+
           quoted "page" (": " +:+ str_int page +:+ "}"))))).
Proof.
  unfold detail_token, dumps. cbn [map String.concat].
  rewrite !append_assoc. reflexivity.
Qed.

Lemma scan_detail f index page :
  scan_value (S (S (S (S (S f))))) (dumps (detail_token index page))
    = Scanned (detail_token index page) "".
Proof.
  rewrite dumps_detail. unfold quoted at 1. rewrite scan_object_open.
  erewrite scan_member_more; [|reflexivity|reflexivity|reflexivity].
  erewrite scan_member_more;
    [|reflexivity|by apply scan_value_int|by apply scan_value_int].
  erewrite scan_member_last;
    [|reflexivity|by apply scan_value_int|by apply scan_value_int].
  reflexivity.
Qed.

Lemma enough_fuel (s : string) c1 c2 c3 rest :
  s = String c1 (String c2 (String c3 rest)) ->
  exists f, (2 * String.length s + 2 = S (S (S (S (S f)))))%nat.
Proof.
  intros ->. exists (2 * String.length rest + 3)%nat.
  cbn [String.length]. lia.
Qed.

Lemma loads_scanned s c1 c2 c3 rest v :
  s = String c1 (String c2 (String c3 rest)) ->
  skip_ws s = s ->
  (forall f, scan_value (S (S (S (S (S f))))) s = Scanned v "") ->
  loads s = Ret v.
Proof.
  intros Hs Hws Hscan. unfold loads.
  destruct (enough_fuel s c1 c2 c3 rest Hs) as [f ->].
  by rewrite Hws, Hscan.
Qed.

Lemma loads_dumps_token token :
  valid_token token -> loads (dumps token) = Ret token.
Proof.
  destruct 1 as [| |index page]; [reflexivity | reflexivity |].
  eapply loads_scanned.
  - rewrite dumps_detail. unfold quoted at 1. reflexivity.
  - by rewrite dumps_detail.
  - intros f. apply scan_detail.
Qed.

Lemma default_codec installed data_source names size chosen self :
  __init__ installed data_source names size chosen None None = Ret self ->
  _serialize_callback self = dumps /\ _deserialize_callback self = loads.
Proof.
  intros Hinit. unfold __init__ in Hinit.
  case_decide; [discriminate|].
  unfold bind at 1 in Hinit.
  destruct (_refresh _) as [[[]|e] self1] eqn:Hrefresh; [|discriminate].
  destruct (_init_framework_handlers installed self1) as [[[]|e] self2] eqn:Hh;
    [|discriminate].
  injection Hinit as <-.
  assert (Hcodec1 : _serialize_callback self1 = dumps /\
                    _deserialize_callback self1 = loads).
  { unfold _refresh, bind, get, assign, lift in Hrefresh. simpl in Hrefresh.
    destruct (paginate _ _ _) as [page|e]; [|discriminate].
    by injection Hrefresh as <-. }
  destruct (init_framework_handlers_returns installed self1) as [handlers Heq].
  rewrite Heq in Hh. by injection Hh as <-.
Qed.

(** C9: the default serializer and deserializer installed by the
    constructor are inverse on the callback tokens: decoding the encoding
    of [{action: next}], [{action: prev}] or [{action: detail, index: i,
    page: p}] gives the token back, for all integers [i] and [p]. *)
Theorem default_codec_round_trip installed data_source names size chosen
    self token :
  __init__ installed data_source names size chosen None None = Ret self ->
  valid_token token ->
  _deserialize_callback self (_serialize_callback self token) = Ret token.
Proof.
  intros Hinit Htoken.
  destruct (default_codec _ _ _ _ _ _ Hinit) as [-> ->].
  by apply loads_dumps_token.
Qed.

Lemma default_codec_round_trip_witness :
  _deserialize_callback sample (_serialize_callback sample (detail_token 7 (-3)))
    = Ret (detail_token 7 (-3)).
Proof.
  apply (default_codec_round_trip
           (fun framework => match framework with Telegram => true | _ => false end)
           sample_records ["name"] 2 None).
  - reflexivity.
  - apply token_detail.
Defined.

(** *** The recursion budget of [loads] is never used up *)

Lemma skip_ws_length s : (String.length (skip_ws s) <= String.length s)%nat.
Proof.
  induction s as [|c s IH]; simpl; [done|].
  destruct (is_ws c); simpl; lia.
Qed.

Lemma strip_prefix_length p s r :
  strip_prefix p s = Some r -> (String.length r <= String.length s)%nat.
Proof.
  revert s. induction p as [|a p IH]; intros s H; simpl in H.
  - injection H as ->. done.
  - destruct s as [|b s]; [discriminate|].
    destruct (Ascii.eqb a b); [|discriminate].
    apply IH in H. simpl. lia.
Qed.

Lemma scan_digits_length s :
  (String.length (snd (scan_digits s)) <= String.length s)%nat.
Proof.
  induction s as [|c s IH]; simpl; [done|].
  destruct (digit_of c); simpl; [|lia].
  destruct (scan_digits s). simpl in *. lia.
Qed.

Lemma scan_number_length negative s v r :
  scan_number negative s = Scanned v r ->
  (String.length r < String.length s)%nat.
Proof.
  unfold scan_number, scan_nat. destruct s as [|c s]; [discriminate|].
  destruct (Ascii.eqb c "0").
  - destruct (float_tail s); [discriminate|]. intros [= _ <-]. simpl. lia.
  - destruct (is_digit c) eqn:Hc; [|discriminate].
    pose proof (scan_digits_length s) as Hlen.
    unfold is_digit in Hc. simpl.
    destruct (digit_of c); [|discriminate].
    destruct (scan_digits s) as [d r']. simpl in Hlen.
    destruct (float_tail r'); [discriminate|]. intros [= _ <-]. lia.
Qed.

Lemma scan_number_budget negative s : scan_number negative s <> Exhausted.
Proof.
  unfold scan_number. destruct (scan_nat s) as [[d r]|]; [|done].
  by destruct (float_tail r).
Qed.

Lemma cons_char_scanned c res body rest :
  cons_char c res = Scanned body rest ->
  exists body', res = Scanned body' rest.
Proof. destruct res; simpl; [|done..]. intros [= _ <-]. eauto. Qed.

Lemma scan_string_length_bounded n s body r :
  (String.length s <= n)%nat ->
  scan_string s = Scanned body r -> (String.length r < String.length s)%nat.
Proof.
  revert s body r. induction n as [|n IH]; intros s body r Hn H.
  - destruct s; [discriminate | simpl in Hn; lia].
  - destruct s as [|c rest]; [discriminate|]. simpl in Hn. simpl in H.
    destruct (Ascii.eqb c dquote).
    { injection H as _ <-. simpl. lia. }
    destruct (Ascii.eqb c "\").
    + destruct rest as [|e rest1]; [discriminate|].
      destruct (Ascii.eqb e "u").
      * destruct rest1 as [|h1 [|h2 [|h3 [|h4 rest2]]]]; try discriminate.
        destruct (hex_value h1), (hex_value h2), (hex_value h3), (hex_value h4);
          try discriminate.
        destruct (_ <? 128)%nat; [|discriminate].
        apply cons_char_scanned in H as [body' H].
        apply IH in H; simpl in *; lia.
      * destruct (simple_escape e); [|discriminate].
        apply cons_char_scanned in H as [body' H].
        apply IH in H; simpl in *; lia.
    + destruct (nat_of_ascii c <? 32)%nat; [discriminate|].
      apply cons_char_scanned in H as [body' H].
      apply IH in H; simpl in *; lia.
Qed.

Lemma scan_string_length s body r :
  scan_string s = Scanned body r -> (String.length r < String.length s)%nat.
Proof. by apply (scan_string_length_bounded (String.length s)). Qed.

Lemma cons_char_budget c res : res <> Exhausted -> cons_char c res <> Exhausted.
Proof. by destruct res. Qed.

Lemma scan_string_budget_bounded n s :
  (String.length s <= n)%nat -> scan_string s <> Exhausted.
Proof.
  revert s. induction n as [|n IH]; intros s Hn.
  - destruct s; [done | simpl in Hn; lia].
  - destruct s as [|c rest]; [done|]. simpl in Hn. simpl.
    destruct (Ascii.eqb c dquote); [done|].
    destruct (Ascii.eqb c "\").
    + destruct rest as [|e rest1]; [done|].
      destruct (Ascii.eqb e "u").
      * destruct rest1 as [|h1 [|h2 [|h3 [|h4 rest2]]]]; try done.
        destruct (hex_value h1), (hex_value h2), (hex_value h3), (hex_value h4);
          try done.
        destruct (_ <? 128)%nat; [|done].
        apply cons_char_budget, IH. simpl in *. lia.
      * destruct (simple_escape e); [|done].
        apply cons_char_budget, IH. simpl in *. lia.
    + destruct (nat_of_ascii c <? 32)%nat; [done|].
      apply cons_char_budget, IH. lia.
Qed.

Lemma scan_string_budget s : scan_string s <> Exhausted.
Proof. by apply (scan_string_budget_bounded (String.length s)). Qed.

Lemma scan_consumes n :
  (forall s v r,
     scan_value n s = Scanned v r -> (String.length r < String.length s)%nat) /\
  (forall acc s v r,
     scan_elements n acc s = Scanned v r ->
     (String.length r < String.length s)%nat) /\
  (forall acc s v r,
     scan_members n acc s = Scanned v r ->
     (String.length r < String.length s)%nat).
Proof.
  induction n as [|n (IHv & IHe & IHm)]; [by repeat split|].
  split; [|split].
  - intros s v r H. destruct s as [|c rest]; [discriminate|].
    cbn [scan_value] in H. cbn [String.length].
    pose proof (skip_ws_length rest) as Hws.
    destruct (Ascii.eqb c dquote).
    { destruct (scan_string rest) as [body r'| | |] eqn:Hs; try discriminate.
      injection H as _ <-. apply scan_string_length in Hs. lia. }
    destruct (Ascii.eqb c "{").
    { destruct (skip_ws rest) as [|c1 r1]; [discriminate|].
      cbn [String.length] in Hws.
      destruct (Ascii.eqb c1 "}").
      - injection H as _ <-. lia.
      - apply IHm in H. cbn [String.length] in H. lia. }
    destruct (Ascii.eqb c "[").
    { destruct (skip_ws rest) as [|c1 r1]; [discriminate|].
      cbn [String.length] in Hws.
      destruct (Ascii.eqb c1 "]").
      - injection H as _ <-. lia.
      - apply IHe in H. cbn [String.length] in H. lia. }
    destruct (Ascii.eqb c "n").
    { destruct (strip_prefix "ull" rest) as [r'|] eqn:Hp; [|discriminate].
      injection H as _ <-. apply strip_prefix_length in Hp. lia. }
    destruct (Ascii.eqb c "t").
    { destruct (strip_prefix "rue" rest) as [r'|] eqn:Hp; [|discriminate].
      injection H as _ <-. apply strip_prefix_length in Hp. lia. }
    destruct (Ascii.eqb c "f").
    { destruct (strip_prefix "alse" rest) as [r'|] eqn:Hp; [|discriminate].
      injection H as _ <-. apply strip_prefix_length in Hp. lia. }
    destruct (Ascii.eqb c "N").
    { by destruct (strip_prefix "aN" rest). }
    destruct (Ascii.eqb c "I").
    { by destruct (strip_prefix "nfinity" rest). }
    destruct (Ascii.eqb c "-").
    { destruct (strip_prefix "Infinity" rest); [discriminate|].
      apply scan_number_length in H. lia. }
    apply scan_number_length in H. cbn [String.length] in H. lia.
  - intros acc s v r H. cbn [scan_elements] in H.
    destruct (scan_value n s) as [x r0| | |] eqn:Hv; try discriminate.
    apply IHv in Hv. pose proof (skip_ws_length r0) as Hws.
    destruct (skip_ws r0) as [|c r1]; [discriminate|].
    cbn [String.length] in Hws.
    destruct (Ascii.eqb c "]").
    { injection H as _ <-. lia. }
    destruct (Ascii.eqb c ","); [|discriminate].
    apply IHe in H. pose proof (skip_ws_length r1). lia.
  - intros acc s v r H. cbn [scan_members] in H.
    destruct s as [|q r0]; [discriminate|]. cbn [String.length].
    destruct (Ascii.eqb q dquote); [|discriminate].
    destruct (scan_string r0) as [key r1| | |] eqn:Hk; try discriminate.
    apply scan_string_length in Hk. pose proof (skip_ws_length r1) as Hws1.
    destruct (skip_ws r1) as [|c r2]; [discriminate|].
    cbn [String.length] in Hws1.
    destruct (Ascii.eqb c ":"); [|discriminate].
    destruct (scan_value n (skip_ws r2)) as [x r3| | |] eqn:Hv; try discriminate.
    apply IHv in Hv. pose proof (skip_ws_length r2) as Hws2.
    pose proof (skip_ws_length r3) as Hws3.
    destruct (skip_ws r3) as [|c2 r4]; [discriminate|].
    cbn [String.length] in Hws3.
    destruct (Ascii.eqb c2 "}").
    { injection H as _ <-. lia. }
    destruct (Ascii.eqb c2 ","); [|discriminate].
    apply IHm in H. pose proof (skip_ws_length r4). lia.
Qed.

Lemma scan_budget n :
  (forall s, (2 * String.length s + 1 <= n)%nat -> scan_value n s <> Exhausted) /\
  (forall acc s,
     (2 * String.length s + 2 <= n)%nat -> scan_elements n acc s <> Exhausted) /\
  (forall acc s,
     (2 * String.length s + 2 <= n)%nat -> scan_members n acc s <> Exhausted).
Proof.
  induction n as [|n (IHv & IHe & IHm)]; [repeat split; intros; lia|].
  destruct (scan_consumes n) as (Cv & _ & _).
  split; [|split].
  - intros s Hn. destruct s as [|c rest]; [done|].
    cbn [scan_value]. cbn [String.length] in Hn.
    pose proof (skip_ws_length rest) as Hws.
    destruct (Ascii.eqb c dquote).
    { pose proof (scan_string_budget rest). by destruct (scan_string rest). }
    destruct (Ascii.eqb c "{").
    { destruct (skip_ws rest) as [|c1 r1]; [done|].
      cbn [String.length] in Hws.
      destruct (Ascii.eqb c1 "}"); [done|].
      apply IHm. cbn [String.length]. lia. }
    destruct (Ascii.eqb c "[").
    { destruct (skip_ws rest) as [|c1 r1]; [done|].
      cbn [String.length] in Hws.
      destruct (Ascii.eqb c1 "]"); [done|].
      apply IHe. cbn [String.length]. lia. }
    destruct (Ascii.eqb c "n"); [by destruct (strip_prefix "ull" rest)|].
    destruct (Ascii.eqb c "t"); [by destruct (strip_prefix "rue" rest)|].
    destruct (Ascii.eqb c "f"); [by destruct (strip_prefix "alse" rest)|].
    destruct (Ascii.eqb c "N"); [by destruct (strip_prefix "aN" rest)|].
    destruct (Ascii.eqb c "I"); [by destruct (strip_prefix "nfinity" rest)|].
    destruct (Ascii.eqb c "-").
    { destruct (strip_prefix "Infinity" rest); [done|].
      apply scan_number_budget. }
    apply scan_number_budget.
  - intros acc s Hn. cbn [scan_elements].
    pose proof (IHv s ltac:(lia)) as Hv.
    destruct (scan_value n s) as [x r0| | |] eqn:Hs; try done.
    apply Cv in Hs. pose proof (skip_ws_length r0) as Hws.
    destruct (skip_ws r0) as [|c r1]; [done|].
    cbn [String.length] in Hws.
    destruct (Ascii.eqb c "]"); [done|].
    destruct (Ascii.eqb c ","); [|done].
    apply IHe. pose proof (skip_ws_length r1). lia.
  - intros acc s Hn. cbn [scan_members].
    destruct s as [|q r0]; [done|]. cbn [String.length] in Hn.
    destruct (Ascii.eqb q dquote); [|done].
    pose proof (scan_string_budget r0) as Hb.
    destruct (scan_string r0) as [key r1| | |] eqn:Hk; try done.
    apply scan_string_length in Hk. pose proof (skip_ws_length r1) as Hws1.
    destruct (skip_ws r1) as [|c r2]; [done|].
    cbn [String.length] in Hws1.
    destruct (Ascii.eqb c ":"); [|done].
    pose proof (skip_ws_length r2) as Hws2.
    pose proof (IHv (skip_ws r2) ltac:(lia)) as Hv.
    destruct (scan_value n (skip_ws r2)) as [x r3| | |] eqn:Hs; try done.
    apply Cv in Hs. pose proof (skip_ws_length r3) as Hws3.
    destruct (skip_ws r3) as [|c2 r4]; [done|].
    cbn [String.length] in Hws3.
    destruct (Ascii.eqb c2 "}"); [done|].
    destruct (Ascii.eqb c2 ","); [|done].
    apply IHm. pose proof (skip_ws_length r4). lia.
Qed.

(** [loads] returns a value, rejects the text, or meets a float or a
    non-ASCII escape; the branch for the used-up budget is dead. *)
Lemma loads_budget s : loads s <> Raise (OtherError "RecursionError").
Proof.
  unfold loads.
  pose proof (proj1 (scan_budget (2 * String.length s + 2)) (skip_ws s)) as Hb.
  pose proof (skip_ws_length s) as Hws.
  destruct (scan_value _ (skip_ws s)) as [v rest| |w|]; try done.
  - by destruct (skip_ws rest).
  - exfalso. apply Hb; [lia | done].
Qed.

(** * Further properties *)

(** ** The engine *)

Lemma apply_filters_filter records filters :
  apply_filters records filters = filter (passes filters) records.
Proof.
  unfold apply_filters. case_decide as Hf.
  - subst filters. induction records as [|r rs IH]; [done|].
    rewrite filter_cons_True by apply map_Forall_empty. by rewrite <- IH.
  - by rewrite filter_loop.
Qed.

(** X1: filtering a filtered list by a second filter set keeps the
    records that pass both, so the order of the two filterings does not
    matter, and filtering again by the same set changes nothing. *)
Theorem apply_filters_twice records f g :
  apply_filters (apply_filters records f) g
    = filter (fun r => passes g r /\ passes f r) records /\
  apply_filters (apply_filters records f) g
    = apply_filters (apply_filters records g) f /\
  apply_filters (apply_filters records f) f = apply_filters records f.
Proof.
  rewrite !apply_filters_filter, !list_filter_filter.
  split; [done|]. split.
  - apply list_filter_iff. tauto.
  - apply list_filter_iff. tauto.
Qed.

Lemma passes_subseteq f g record : f ⊆ g -> passes g record -> passes f record.
Proof.
  unfold passes. intros Hsub Hg key val Hkey. apply Hg.
  by apply (lookup_weaken f g).
Qed.

(** X2: a larger filter set keeps fewer records: what passes a filter set
    is a sub-list, in the same order, of what passes any part of it, and so
    of the records themselves. *)
Theorem apply_filters_narrows records f g :
  f ⊆ g ->
  apply_filters records g `sublist_of` apply_filters records f /\
  apply_filters records f `sublist_of` records /\
  (length (apply_filters records g) <= length (apply_filters records f)
     <= length records)%nat.
Proof.
  intros Hsub. rewrite !apply_filters_filter.
  assert (Hgf : filter (passes g) records
                = filter (passes g) (filter (passes f) records)).
  { rewrite list_filter_filter. apply list_filter_iff.
    intros r. split; [|tauto]. intros Hg. split; [done|].
    by apply (passes_subseteq f g). }
  assert (H1 : filter (passes g) records `sublist_of` filter (passes f) records).
  { rewrite Hgf. apply sublist_filter. }
  assert (H2 : filter (passes f) records `sublist_of` records)
    by apply sublist_filter.
  split; [done|]. split; [done|].
  split; by apply sublist_length.
Qed.

Lemma apply_filters_narrows_witness :
  apply_filters sample_records {[ "name" := PStr "bob"; "age" := PInt 3 ]}
    `sublist_of` apply_filters sample_records {[ "name" := PStr "bob" ]}.
Proof.
  apply (apply_filters_narrows sample_records).
  apply map_subseteq_spec. intros key val Hkey.
  apply lookup_singleton_Some in Hkey as [<- <-]. apply lookup_insert_eq.
Defined.

Lemma ascii_lower_idempotent c : ascii_lower (ascii_lower c) = ascii_lower c.
Proof. destruct c as [[] [] [] [] [] [] [] []]; reflexivity. Qed.

Lemma lower_idempotent s : lower (lower s) = lower s.
Proof.
  induction s as [|c s IH]; [done|].
  simpl. by rewrite ascii_lower_idempotent, IH.
Qed.

(** X3: filter values are compared as text, letter case apart: two
    values whose lower-cased texts are equal (the int 5 and the string "5",
    "Active" and "ACTIVE") keep the same records, and so do a filter on a
    text and the filter on its lower-case form. *)
Theorem apply_filters_compares_text records filters key :
  (forall v w,
     lower (py_str v) = lower (py_str w) ->
     apply_filters records (<[key := v]> filters)
       = apply_filters records (<[key := w]> filters)) /\
  (forall s,
     apply_filters records (<[key := PStr (lower s)]> filters)
       = apply_filters records (<[key := PStr s]> filters)).
Proof.
  assert (Hgen : forall v w,
            lower (py_str v) = lower (py_str w) ->
            apply_filters records (<[key := v]> filters)
              = apply_filters records (<[key := w]> filters)).
  { intros v w Hvw. rewrite !apply_filters_filter.
    apply list_filter_iff. intros r. unfold passes.
    split; intros H k x Hk;
      (destruct (decide (key = k)) as [->|Hne];
       [rewrite lookup_insert_eq in Hk; injection Hk as <-
       |rewrite lookup_insert_ne in Hk by done]).
    - rewrite <- Hvw. apply (H k v). apply lookup_insert_eq.
    - apply H. by rewrite lookup_insert_ne.
    - rewrite Hvw. apply (H k w). apply lookup_insert_eq.
    - apply H. by rewrite lookup_insert_ne. }
  split; [exact Hgen|].
  intros s. apply Hgen. simpl. apply lower_idempotent.
Qed.

Lemma apply_filters_compares_text_witness :
  apply_filters [ {[ "age" := PStr "5" ]}; {[ "age" := PInt 6 ]} ]
                {[ "age" := PInt 5 ]}
    = [ {[ "age" := PStr "5" ]} ].
Proof.
  rewrite <- (insert_empty "age" (PInt 5)).
  rewrite (proj1 (apply_filters_compares_text
                    [ {[ "age" := PStr "5" ]}; {[ "age" := PInt 6 ]} ] ∅ "age")
             (PInt 5) (PStr "5") eq_refl).
  reflexivity.
Defined.

Lemma lower_empty s : lower s = "" <-> s = "".
Proof. by destruct s. Qed.

(** X23: a missing field counts as the empty text: among records that
    lack the key, a filter on that key keeps all of them when the text of
    its value is empty and none of them otherwise. *)
Theorem apply_filters_missing_field records key val :
  Forall (fun record => record !! key = None) records ->
  (py_str val = "" -> apply_filters records {[ key := val ]} = records) /\
  (py_str val <> "" -> apply_filters records {[ key := val ]} = []).
Proof.
  intros Hmissing. rewrite apply_filters_filter.
  assert (Hpass : forall record,
            record !! key = None ->
            passes {[ key := val ]} record <-> py_str val = "").
  { intros record Hnone. unfold passes. rewrite map_Forall_singleton, Hnone.
    simpl. split.
    - intros H. by apply lower_empty.
    - by intros ->. }
  split; intros Hval.
  - induction Hmissing as [|record rest Hnone _ IH]; [done|].
    rewrite filter_cons_True by by apply Hpass. by rewrite IH.
  - induction Hmissing as [|record rest Hnone _ IH]; [done|].
    rewrite filter_cons_False; [done|]. intros H. by apply Hpass in H.
Qed.

Lemma apply_filters_missing_field_witness :
  apply_filters sample_records {[ "city" := PStr "" ]} = sample_records /\
  apply_filters sample_records {[ "city" := PNone ]} = [].
Proof.
  assert (Hmissing : Forall (fun record : gmap string pyval =>
                               record !! "city" = None) sample_records)
    by (repeat constructor).
  split.
  - by apply (apply_filters_missing_field sample_records "city" (PStr "")).
  - by apply (apply_filters_missing_field sample_records "city" PNone).
Defined.

Lemma py_slice_length {A : Type} (l : list A) a b :
  length (py_slice l a b) =
    Z.to_nat (slice_index (Z.of_nat (length l)) b
              - slice_index (Z.of_nat (length l)) a).
Proof.
  unfold py_slice. cbv zeta. rewrite length_take, length_drop.
  unfold slice_index.
  destruct (Z.ltb_spec a 0), (Z.ltb_spec b 0); lia.
Qed.

(** X4: for a positive page size no page holds more than [page_size]
    records, every page before the last holds exactly [page_size], and the
    last page of a list that is not empty holds at least one; the empty
    list has one page, which is empty. *)
Theorem page_lengths {A : Type} (records : list A) (page_size : Z) :
  0 < page_size ->
  let total := page_count records page_size in
  (forall page,
     Z.of_nat (length (page_slice records page page_size)) <= page_size) /\
  (forall page,
     1 <= page < total ->
     Z.of_nat (length (page_slice records page page_size)) = page_size) /\
  (records <> [] ->
   1 <= Z.of_nat (length (page_slice records total page_size)) <= page_size) /\
  (records = [] -> total = 1 /\ page_slice records 1 page_size = []).
Proof.
  intros Hs total. subst total. rewrite page_count_eq by done.
  set (n := Z.of_nat (length records)).
  pose proof (ceil_div_bounds n page_size Hs) as Hc.
  assert (Hlen : forall page,
            Z.of_nat (length (page_slice records page page_size)) =
              Z.max 0 (slice_index n ((page - 1) * page_size + page_size)
                       - slice_index n ((page - 1) * page_size))).
  { intros page. unfold page_slice. rewrite paginate_returns by lia.
    rewrite py_slice_length. fold n. lia. }
  split; [|split; [|split]].
  - intros page. rewrite Hlen. unfold slice_index.
    destruct (Z.ltb_spec ((page - 1) * page_size) 0),
             (Z.ltb_spec ((page - 1) * page_size + page_size) 0); lia.
  - intros page Hp. rewrite Hlen. unfold slice_index.
    destruct (Z.ltb_spec ((page - 1) * page_size) 0); [nia|].
    destruct (Z.ltb_spec ((page - 1) * page_size + page_size) 0); [nia|].
    nia.
  - intros Hne. rewrite Hlen.
    assert (0 < n) by (subst n; destruct records; [done | simpl; lia]).
    unfold slice_index.
    destruct (Z.ltb_spec ((Z.max 1 (ceil_div n page_size) - 1) * page_size) 0);
      [nia|].
    destruct (Z.ltb_spec
                ((Z.max 1 (ceil_div n page_size) - 1) * page_size + page_size) 0);
      [nia|].
    nia.
  - intros ->. split; [subst n; simpl in *; nia|].
    apply nil_length_inv. specialize (Hlen 1). subst n. simpl in Hlen.
    unfold slice_index in Hlen.
    destruct (Z.ltb_spec ((1 - 1) * page_size) 0),
             (Z.ltb_spec ((1 - 1) * page_size + page_size) 0); lia.
Qed.

Lemma page_lengths_witness :
  length (page_slice [10; 20; 30; 40; 50] 2 2) = 2%nat /\
  (1 <= Z.of_nat (length (page_slice [10; 20; 30; 40; 50] 3 2)) <= 2).
Proof.
  destruct (page_lengths [10; 20; 30; 40; 50] 2 ltac:(lia))
    as (_ & Hfull & Hlast & _).
  split.
  - specialize (Hfull 2 ltac:(vm_compute; split; [discriminate | reflexivity])).
    lia.
  - apply Hlast. discriminate.
Defined.

(** ** The controller *)

Lemma in_sync_page_size self : in_sync self -> page_size self <> 0.
Proof.
  intros [_ Hp] Hz. unfold paginate in Hp. by rewrite decide_True in Hp.
Qed.

Lemma in_sync_refreshed self : page_size self <> 0 -> in_sync (refreshed self).
Proof.
  intros Hz. unfold in_sync, refreshed. simpl. split; [done|].
  by rewrite paginate_returns.
Qed.

Lemma in_sync_fixed self : in_sync self -> refreshed self = self.
Proof.
  intros Hsync. pose proof (in_sync_page_size self Hsync) as Hz.
  destruct Hsync as [Hf Hp]. rewrite paginate_returns in Hp by done.
  injection Hp as Hpage Htotal.
  unfold refreshed. rewrite <- Hf, Hpage, Htotal.
  by destruct self.
Qed.

Lemma same_setup_refl self : same_setup self self.
Proof. by repeat split. Qed.

Lemma same_setup_trans a b c : same_setup a b -> same_setup b c -> same_setup a c.
Proof.
  unfold same_setup. intros (?&?&?&?&?&?) (?&?&?&?&?&?).
  repeat split; congruence.
Qed.

Lemma perform_in_sync self o :
  in_sync self -> in_sync (perform self o) /\ same_setup self (perform self o).
Proof.
  intros Hsync. pose proof (in_sync_page_size self Hsync) as Hz.
  assert (Hnext : in_sync (snd (next_page self)) /\
                  same_setup self (snd (next_page self))).
  { destruct (decide (current_page self < total_pages self)).
    - rewrite next_page_moves by done. split; [|by repeat split].
      by apply in_sync_refreshed.
    - rewrite next_page_stays by done. split; [done | apply same_setup_refl]. }
  assert (Hprev : in_sync (snd (prev_page self)) /\
                  same_setup self (snd (prev_page self))).
  { destruct (decide (current_page self > 1)).
    - rewrite prev_page_moves by done. split; [|by repeat split].
      by apply in_sync_refreshed.
    - rewrite prev_page_stays by done. split; [done | apply same_setup_refl]. }
  destruct o as [kwargs| | |framework|callback_data]; simpl.
  - unfold set_filters, bind, assign. rewrite refresh_returns by done.
    split; [|by repeat split]. by apply in_sync_refreshed.
  - exact Hnext.
  - exact Hprev.
  - rewrite build_message_state. split; [done | apply same_setup_refl].
  - destruct (handle_callback_state callback_data self)
      as [-> | [-> | [-> | [record ->]]]]; try done.
    all: split; [done | by repeat split].
Qed.

Lemma constructed_in_sync installed data_source names size chosen ser deser self :
  __init__ installed data_source names size chosen ser deser = Ret self ->
  in_sync self /\ raw_data self = data_source /\ fields self = names /\
  page_size self = size /\
  _serialize_callback self = default Json.dumps ser /\
  _deserialize_callback self = default Json.loads deser.
Proof.
  intros Hinit.
  destruct (init_cases installed data_source names size chosen ser deser)
    as [(_ & Hb) | [(_ & _ & Hb) | (_ & Hz & handlers & Hb)]];
    rewrite Hinit in Hb; try discriminate.
  injection Hb as ->. split; [|by repeat split].
  unfold in_sync. simpl. split; [done|]. by rewrite paginate_returns.
Qed.

(** X5: the constructor fails with [ZeroDivisionError] exactly when at
    most ten field names are given and the page size is zero. *)
Theorem construction_zero_page_size installed data_source names size chosen
    ser deser :
  __init__ installed data_source names size chosen ser deser
    = Raise ZeroDivisionError
  <-> (length names <= 10)%nat /\ size = 0.
Proof.
  destruct (init_cases installed data_source names size chosen ser deser)
    as [(Hlen & Hb) | [(Hlen & Hz & Hb) | (Hlen & Hz & handlers & Hb)]];
    rewrite Hb.
  - split; [discriminate | lia].
  - done.
  - split; [discriminate | intros [_ ?]; done].
Qed.

(** X6: after construction and after any sequence of operations the
    computed attributes are in step with the rest: [filtered] is the data
    filtered by the current filters and [page_data], [total_pages] are what
    [paginate] gives for the current page; and the data, the field names,
    the page size and the codec are those given to the constructor. *)
Theorem operations_keep_in_sync installed data_source names size chosen ser
    deser self ops :
  __init__ installed data_source names size chosen ser deser = Ret self ->
  let now := run self ops in
  filtered now = apply_filters data_source (filters now) /\
  paginate (filtered now) (current_page now) size
    = Ret (page_data now, total_pages now) /\
  raw_data now = data_source /\ fields now = names /\ page_size now = size /\
  _serialize_callback now = default Json.dumps ser /\
  _deserialize_callback now = default Json.loads deser.
Proof.
  intros Hinit now.
  destruct (constructed_in_sync _ _ _ _ _ _ _ _ Hinit)
    as (Hsync & Hraw & Hfields & Hsize & Hser & Hdeser).
  assert (Hrun : in_sync now /\ same_setup self now).
  { subst now. clear Hinit Hraw Hfields Hsize Hser Hdeser.
    assert (Hgen : forall start,
              in_sync start -> same_setup self start ->
              in_sync (run start ops) /\ same_setup self (run start ops)).
    { unfold run. induction ops as [|o ops IH]; intros start Hs Hsame; [done|].
      simpl. destruct (perform_in_sync start o Hs) as [Hs' Hsame'].
      apply IH; [done|]. by apply (same_setup_trans self start). }
    apply Hgen; [done | apply same_setup_refl]. }
  destruct Hrun as ([Hf Hp] & Hr & Hfi & Hps & Hse & Hde & _).
  rewrite <- Hr, <- Hfi, <- Hps, <- Hse, <- Hde.
  repeat split; try done.
  - by rewrite <- Hraw, Hr.
  - by rewrite <- Hsize, Hps.
Qed.

Lemma operations_keep_in_sync_witness :
  let now := run sample [NextPage; SetFilters {[ "name" := PStr "ANN" ]}] in
  filtered now = apply_filters sample_records (filters now) /\
  raw_data now = sample_records.
Proof.
  destruct (operations_keep_in_sync
              (fun framework => match framework with Telegram => true | _ => false end)
              sample_records ["name"] 2 None None None sample
              [NextPage; SetFilters {[ "name" := PStr "ANN" ]}] eq_refl)
    as (Hf & _ & Hr & _).
  split; assumption.
Defined.

Lemma page_slice_py_slice {A : Type} (records : list A) page page_size :
  page_size <> 0 ->
  page_slice records page page_size =
    py_slice records ((page - 1) * page_size) ((page - 1) * page_size + page_size).
Proof. intros Hz. unfold page_slice. by rewrite paginate_returns. Qed.

(** X7: [set_filters] replaces the filter set, goes back to page 1 and
    recomputes: the page shown is the first [page_size] records that pass
    the new filters; the selection and the rest of the instance stay. *)
Theorem set_filters_first_page self kwargs :
  0 < page_size self ->
  exists after,
    set_filters kwargs self = (Ret tt, after) /\
    filters after = kwargs /\ current_page after = 1 /\
    filtered after = filter (passes kwargs) (raw_data self) /\
    page_data after = take (Z.to_nat (page_size self)) (filtered after) /\
    selected_item after = selected_item self /\
    same_setup self after.
Proof.
  intros Hs. eexists. split.
  { unfold set_filters, bind, assign. by rewrite refresh_returns by (simpl; lia). }
  simpl. rewrite apply_filters_filter.
  repeat split; try done.
  rewrite <- page_slice_py_slice by lia.
  by rewrite page_slice_take_drop by lia.
Qed.

Lemma set_filters_first_page_witness :
  exists after,
    set_filters {[ "name" := PStr "BOB" ]} sample = (Ret tt, after) /\
    page_data after = [ {[ "name" := PStr "Bob" ]} ] /\ current_page after = 1.
Proof.
  destruct (set_filters_first_page sample {[ "name" := PStr "BOB" ]}
              ltac:(reflexivity))
    as (after & Hrun & _ & Hpage & Hfiltered & Hdata & _).
  exists after. split; [exact Hrun|]. split; [|exact Hpage].
  rewrite Hdata, Hfiltered. reflexivity.
Defined.

(** X8: recomputing twice is recomputing once, whether [_refresh] returns
    or raises. *)
Theorem refresh_idempotent self : (_refresh ;; _refresh) self = _refresh self.
Proof.
  unfold bind. destruct (decide (page_size self = 0)) as [Hz|Hz].
  - by rewrite refresh_raises.
  - rewrite refresh_returns by done. rewrite refresh_returns by done.
    by rewrite (in_sync_fixed (refreshed self)) by by apply in_sync_refreshed.
Qed.

Lemma refreshed_page_twice self c c' :
  refreshed (with_current_page c (refreshed (with_current_page c' self)))
    = refreshed (with_current_page c self).
Proof. reflexivity. Qed.

Lemma with_current_page_same self :
  with_current_page (current_page self) self = self.
Proof. by destruct self. Qed.

Lemma in_sync_total self :
  in_sync self ->
  total_pages self =
    Z.max 1 ((Z.of_nat (length (apply_filters (raw_data self) (filters self)))
              + page_size self - 1) / page_size self).
Proof.
  intros Hsync. pose proof (in_sync_page_size self Hsync) as Hz.
  destruct Hsync as [Hf Hp]. rewrite paginate_returns in Hp by done.
  injection Hp as _ <-. by rewrite Hf.
Qed.

(** X9: going to the next page and then back, or back and then forth,
    returns the instance to the state it was in. *)
Theorem next_prev_round_trip self :
  in_sync self ->
  (1 <= current_page self < total_pages self ->
   (next_page ;; prev_page) self = (Ret true, self)) /\
  (1 < current_page self <= total_pages self ->
   (prev_page ;; next_page) self = (Ret true, self)).
Proof.
  intros Hsync. pose proof (in_sync_page_size self Hsync) as Hz.
  pose proof (in_sync_total self Hsync) as Htotal.
  split; intros Hp; unfold bind.
  - rewrite next_page_moves by (done || lia).
    rewrite prev_page_moves by (done || simpl; lia).
    rewrite refreshed_page_twice. simpl.
    replace (current_page self + 1 - 1) with (current_page self) by lia.
    by rewrite with_current_page_same, in_sync_fixed.
  - rewrite prev_page_moves by (done || lia).
    rewrite next_page_moves by (done || simpl; lia).
    rewrite refreshed_page_twice. simpl.
    replace (current_page self - 1 + 1) with (current_page self) by lia.
    by rewrite with_current_page_same, in_sync_fixed.
Qed.

Lemma sample_in_sync : in_sync sample.
Proof. split; reflexivity. Qed.

Lemma next_prev_round_trip_witness :
  (next_page ;; prev_page) sample = (Ret true, sample).
Proof.
  apply (next_prev_round_trip sample sample_in_sync).
  split; [discriminate | reflexivity].
Defined.

Lemma run_in_sync self ops :
  in_sync self -> in_sync (run self ops) /\ same_setup self (run self ops).
Proof.
  unfold run. revert self.
  induction ops as [|o ops IH]; intros self Hs; [split; [done|apply same_setup_refl]|].
  simpl. destruct (perform_in_sync self o Hs) as [Hs' Hsame'].
  destruct (IH _ Hs') as [Hs'' Hsame'']. split; [done|].
  by apply (same_setup_trans self (perform self o)).
Qed.

Lemma perform_in_range self o :
  in_sync self -> 1 <= current_page self <= total_pages self ->
  1 <= current_page (perform self o) <= total_pages (perform self o).
Proof.
  intros Hsync Hp. pose proof (in_sync_page_size self Hsync) as Hz.
  pose proof (in_sync_total self Hsync) as Htotal.
  assert (Hnext : 1 <= current_page (snd (next_page self))
                    <= total_pages (snd (next_page self))).
  { destruct (decide (current_page self < total_pages self)).
    - rewrite next_page_moves by done. simpl. lia.
    - by rewrite next_page_stays. }
  assert (Hprev : 1 <= current_page (snd (prev_page self))
                    <= total_pages (snd (prev_page self))).
  { destruct (decide (current_page self > 1)).
    - rewrite prev_page_moves by done. simpl. lia.
    - by rewrite prev_page_stays. }
  destruct o as [kwargs| | |framework|callback_data]; simpl; try done.
  - unfold set_filters, bind, assign. rewrite refresh_returns by done.
    simpl. lia.
  - by rewrite build_message_state.
  - destruct (handle_callback_state callback_data self)
      as [-> | [-> | [-> | [record ->]]]]; done.
Qed.

Lemma run_in_range self ops :
  in_sync self -> 1 <= current_page self <= total_pages self ->
  1 <= current_page (run self ops) <= total_pages (run self ops).
Proof.
  unfold run. revert self.
  induction ops as [|o ops IH]; intros self Hs Hp; [done|].
  simpl. apply IH.
  - by apply perform_in_sync.
  - by apply perform_in_range.
Qed.

Lemma constructed_in_range installed data_source names size chosen ser deser
    self :
  __init__ installed data_source names size chosen ser deser = Ret self ->
  1 <= current_page self <= total_pages self.
Proof.
  intros Hinit.
  destruct (init_cases installed data_source names size chosen ser deser)
    as [(_ & Hb) | [(_ & _ & Hb) | (_ & Hz & handlers & Hb)]];
    rewrite Hinit in Hb; try discriminate.
  injection Hb as ->. simpl. lia.
Qed.

Lemma page_empty_iff self :
  in_sync self -> 0 < page_size self ->
  1 <= current_page self <= total_pages self ->
  page_data self = [] <-> filtered self = [].
Proof.
  intros Hsync Hs Hp. pose proof (in_sync_total self Hsync) as Htotal.
  destruct Hsync as [Hf Hpage]. rewrite <- Hf in Htotal.
  rewrite paginate_returns in Hpage by lia. injection Hpage as Hdata _.
  rewrite round_up_div_ceil in Htotal by done.
  set (n := Z.of_nat (length (filtered self))) in *.
  pose proof (ceil_div_bounds n (page_size self) Hs) as Hc.
  assert (Hlen : Z.of_nat (length (page_data self)) =
                 Z.max 0 (slice_index n ((current_page self - 1) * page_size self
                                         + page_size self)
                          - slice_index n ((current_page self - 1) * page_size self))).
  { rewrite <- Hdata, py_slice_length. fold n. lia. }
  assert (Hstart : 0 <= (current_page self - 1) * page_size self) by nia.
  assert (Hinside : 0 < n -> (current_page self - 1) * page_size self < n).
  { intros Hn. rewrite Htotal in Hp.
    destruct (Z.max_spec 1 (ceil_div n (page_size self))) as [[_ Hm]|[_ Hm]];
      rewrite Hm in Hp; nia. }
  unfold slice_index in Hlen.
  destruct (Z.ltb_spec ((current_page self - 1) * page_size self) 0); [lia|].
  destruct (Z.ltb_spec ((current_page self - 1) * page_size self
                        + page_size self) 0); [lia|].
  split; intros Hnil.
  - apply nil_length_inv. rewrite Hnil in Hlen. simpl in Hlen.
    subst n. lia.
  - assert (Hn : n = 0) by (subst n; by rewrite Hnil).
    apply nil_length_inv. lia.
Qed.

(** X10: on an instance constructed with a positive page size, after any
    sequence of operations, the page shown is empty exactly when no record
    passes the current filters, and then there is one page; so the "no
    data" text never hides matching records. *)
Theorem empty_page_means_no_match installed data_source names size chosen ser
    deser self ops :
  0 < size ->
  __init__ installed data_source names size chosen ser deser = Ret self ->
  let now := run self ops in
  (page_data now = [] <-> apply_filters data_source (filters now) = []) /\
  (page_data now = [] -> total_pages now = 1 /\ current_page now = 1).
Proof.
  intros Hs Hinit now.
  destruct (constructed_in_sync _ _ _ _ _ _ _ _ Hinit)
    as (Hsync & Hraw & _ & Hsize & _).
  pose proof (constructed_in_range _ _ _ _ _ _ _ _ Hinit) as Hrange.
  destruct (run_in_sync self ops Hsync) as [Hnow (Hr & _ & Hps & _)].
  pose proof (run_in_range self ops Hsync Hrange) as Hnowrange.
  fold now in Hnow, Hr, Hps, Hnowrange.
  assert (Hpos : 0 < page_size now) by lia.
  pose proof (page_empty_iff now Hnow Hpos Hnowrange) as Hiff.
  pose proof (in_sync_total now Hnow) as Htotal.
  destruct Hnow as [Hf _].
  rewrite <- Hraw, Hr, <- Hf. split; [done|].
  intros Hnil. apply Hiff in Hnil.
  rewrite <- Hf, Hnil in Htotal.
  rewrite Z.div_small in Htotal by (simpl; lia). lia.
Qed.

Lemma empty_page_means_no_match_witness :
  let now := run sample [SetFilters {[ "name" := PStr "Zed" ]}; NextPage] in
  page_data now = [] /\ total_pages now = 1 /\ current_page now = 1.
Proof.
  destruct (empty_page_means_no_match
              (fun framework => match framework with Telegram => true | _ => false end)
              sample_records ["name"] 2 None None None sample
              [SetFilters {[ "name" := PStr "Zed" ]}; NextPage]
              ltac:(reflexivity) eq_refl) as [Hiff Hone].
  assert (Hnil : page_data
                   (run sample [SetFilters {[ "name" := PStr "Zed" ]}; NextPage])
                 = []) by (apply Hiff; reflexivity).
  split; [exact Hnil | exact (Hone Hnil)].
Defined.

Lemma walk_forward self (k : nat) :
  in_sync self -> current_page self = 1 -> Z.of_nat k < total_pages self ->
  run self (replicate k NextPage)
    = refreshed (with_current_page (1 + Z.of_nat k) self).
Proof.
  intros Hsync Hfirst. pose proof (in_sync_page_size self Hsync) as Hz.
  pose proof (in_sync_total self Hsync) as Htotal.
  induction k as [|k IH]; intros Hk.
  - replace (1 + Z.of_nat 0) with (current_page self) by by rewrite Hfirst.
    by rewrite with_current_page_same, in_sync_fixed.
  - rewrite replicate_S_end. unfold run in *. rewrite fold_left_app. simpl.
    rewrite IH by lia.
    rewrite next_page_moves by (done || simpl; lia).
    rewrite refreshed_page_twice. simpl. do 2 f_equal. lia.
Qed.

Lemma pages_prefix_seq {A : Type} (records : list A) page_size (k : nat) :
  0 < page_size ->
  concat (map (fun i => page_slice records (1 + Z.of_nat i) page_size) (seq 0 k))
    = take (k * Z.to_nat page_size) records.
Proof.
  intros Hs. induction k as [|k IH]; [done|].
  rewrite seq_S, map_app, concat_app, IH. simpl.
  rewrite app_nil_r, page_slice_take_drop by lia.
  replace (Z.to_nat ((1 + Z.of_nat k - 1) * page_size))
    with (k * Z.to_nat page_size)%nat by nia.
  rewrite take_take_drop. f_equal. lia.
Qed.

(** X11: browsing with [next_page] from the first page shows every record
    that passes the filters exactly once and in order: the pages met on
    the way, put end to end, are the filtered list; on the last of them
    [next_page] returns false. *)
Theorem browsing_shows_everything self :
  in_sync self -> current_page self = 1 -> 0 < page_size self ->
  let pages := Z.to_nat (total_pages self) in
  concat (map (fun k => page_data (run self (replicate k NextPage)))
              (seq 0 pages))
    = filtered self /\
  next_page (run self (replicate (pages - 1) NextPage))
    = (Ret false, run self (replicate (pages - 1) NextPage)).
Proof.
  intros Hsync Hfirst Hs pages.
  pose proof (in_sync_total self Hsync) as Htotal.
  assert (Hf : filtered self = apply_filters (raw_data self) (filters self))
    by apply Hsync.
  rewrite <- Hf in Htotal.
  assert (Hpages : Z.of_nat pages = total_pages self) by (subst pages; lia).
  split.
  - transitivity
      (concat (map (fun k => page_slice (filtered self) (1 + Z.of_nat k)
                               (page_size self))
                   (seq 0 pages))).
    + f_equal. apply map_ext_in. intros k Hk. apply in_seq in Hk.
      rewrite walk_forward by (done || lia). simpl.
      rewrite page_slice_py_slice by lia. by rewrite <- Hf.
    + rewrite pages_prefix_seq by done. apply take_ge.
      rewrite round_up_div_ceil in Htotal by done.
      pose proof (ceil_div_bounds (Z.of_nat (length (filtered self)))
                    (page_size self) Hs).
      nia.
  - rewrite walk_forward by (done || lia).
    apply next_page_stays. simpl. rewrite <- Hf, <- Htotal. lia.
Qed.

Lemma browsing_shows_everything_witness :
  concat [page_data (run sample []); page_data (run sample [NextPage])]
    = sample_records.
Proof.
  exact (proj1 (browsing_shows_everything sample sample_in_sync eq_refl
                  ltac:(reflexivity))).
Defined.

(** ** Rendering and pressing *)

Lemma build_message_returns self framework handler :
  handler_for self framework = Some handler ->
  build_message framework self =
    (Ret (expected_text self,
          {| markup_class := markup handler;
             inline_keyboard :=
               expected_rows (button handler) self
               ++ expected_navigation (button handler) self |}),
     self).
Proof.
  unfold build_message, bind, get, raise, ret. cbv zeta.
  intros ->. do 2 f_equal. f_equal.
  - unfold expected_text, expected_lines.
    destruct (page_data self) as [|record records] eqn:Hpage; [done|].
    rewrite joined_lines_nonempty.
    by rewrite (enumerate_imap (message_line (fields self))).
  - f_equal. unfold expected_rows, expected_navigation.
    rewrite (seqZ_imap
               (fun i =>
                  [ {| button_class := button handler; text := str_int i;
                       callback_data :=
                         _serialize_callback self
                           (detail_token (i - 1) (current_page self)) |} ])).
    rewrite (imap_ext _
               (fun (i : nat) (_ : gmap string pyval) =>
                  [ {| button_class := button handler;
                       text := str_int (Z.of_nat i + 1);
                       callback_data :=
                         _serialize_callback self
                           (detail_token (Z.of_nat i) (current_page self)) |} ])).
    + repeat case_decide; simpl; rewrite ?app_nil_r; done.
    + intros i x _. simpl.
      by replace (Z.of_nat i + 1 - 1) with (Z.of_nat i) by lia.
Qed.

Lemma press_detail self index page (i : nat) record :
  codec_round_trips self ->
  page_data self !! i = Some record ->
  index = Z.of_nat i ->
  _handle_callback
    (PStr (_serialize_callback self (detail_token index page))) self
  = (Ret (true, "Selected item " +:+ str_int index),
     with_selected_item record self).
Proof.
  intros Hcodec Hrecord ->.
  rewrite (handle_callback_carried self _
             [("action", PStr "detail"); ("index", PInt (Z.of_nat i));
              ("page", PInt page)]).
  - rewrite dispatch_detail by done. cbn [dict_get String.eqb Ascii.eqb Bool.eqb].
    change (default (PInt 0) (Some (PInt (Z.of_nat i)))) with (PInt (Z.of_nat i)).
    cbv zeta. cbn [as_int]. unfold bind, get, assign, ret.
    pose proof (lookup_lt_Some _ _ _ Hrecord) as Hlt.
    rewrite decide_True by lia. by rewrite Nat2Z.id, Hrecord.
  - right. eexists. split; [done|]. apply Hcodec. apply token_detail.
Qed.


Lemma sample_codec : codec_round_trips sample.
Proof. intros token Htoken. by apply loads_dumps_token. Qed.


(** X13: no button of the rendered grid is refused: for a codec that
    gives tokens back and a page size that is not zero, the callback data
    of every button [build_message] returns, the navigation buttons
    included, is handled with [handled = true] when pressed on the state
    that was rendered. *)
Theorem shown_buttons_are_handled self framework handler :
  codec_round_trips self -> page_size self <> 0 ->
  handler_for self framework = Some handler ->
  exists shown keyboard,
    build_message framework self = (Ret (shown, keyboard), self) /\
    forall row pressed,
      row ∈ inline_keyboard keyboard -> pressed ∈ row ->
      exists message after,
        _handle_callback (PStr (callback_data pressed)) self
          = (Ret (true, message), after).
Proof.
  intros Hcodec Hz Hfound. do 2 eexists.
  split; [by apply build_message_returns|].
  intros row pressed Hrow Hpressed. simpl in Hrow.
  apply elem_of_app in Hrow as [Hrow | Hrow].
  - unfold expected_rows in Hrow.
    apply elem_of_lookup_imap in Hrow as (i & record & -> & Hrecord).
    apply list_elem_of_singleton in Hpressed as ->. simpl.
    do 2 eexists. by apply (press_detail self _ _ i record).
  - assert (Hprev : current_page self > 1 ->
              exists message after,
                _handle_callback
                  (PStr (_serialize_callback self (PDict [("action", PStr "prev")])))
                  self = (Ret (true, message), after)).
    { intros Hp.
      rewrite (handle_callback_carried self _ [("action", PStr "prev")])
        by (right; eexists; split; [done | apply Hcodec, token_prev]).
      rewrite dispatch_prev by done. unfold bind.
      rewrite prev_page_moves by done. by do 2 eexists. }
    assert (Hnext : current_page self < total_pages self ->
              exists message after,
                _handle_callback
                  (PStr (_serialize_callback self (PDict [("action", PStr "next")])))
                  self = (Ret (true, message), after)).
    { intros Hp.
      rewrite (handle_callback_carried self _ [("action", PStr "next")])
        by (right; eexists; split; [done | apply Hcodec, token_next]).
      rewrite dispatch_next by done. unfold bind.
      rewrite next_page_moves by done. by do 2 eexists. }
    unfold expected_navigation in Hrow.
    repeat case_decide;
      repeat match goal with
        | H : _ ∈ [_] |- _ => apply list_elem_of_singleton in H; subst
        | H : _ ∈ _ :: _ |- _ => apply elem_of_cons in H as [-> | H]
        | H : _ ∈ [] |- _ => apply elem_of_nil in H; destruct H
        end; simpl; auto.
Qed.

Lemma shown_buttons_are_handled_witness :
  exists shown keyboard,
    build_message "python-telegram-bot" sample = (Ret (shown, keyboard), sample) /\
    forall row pressed,
      row ∈ inline_keyboard keyboard -> pressed ∈ row ->
      exists message after,
        _handle_callback (PStr (callback_data pressed)) sample
          = (Ret (true, message), after).
Proof.
  exact (shown_buttons_are_handled sample "python-telegram-bot"
           {| button := Telegram; markup := Telegram |} sample_codec
           ltac:(discriminate) eq_refl).
Defined.

(** ** Callbacks *)

(** X14: a payload whose action is missing, is not a string, or is a
    string other than "next", "prev" and "detail" is answered
    [(false, "Unknown action")] and changes nothing. *)
Theorem unknown_action self callback_data d :
  carries self callback_data d ->
  (forall a, dict_get d "action" = Some (PStr a) ->
             a <> "next" /\ a <> "prev" /\ a <> "detail") ->
  _handle_callback callback_data self = (Ret (false, "Unknown action"), self).
Proof.
  intros Hc Hother. rewrite (handle_callback_carried _ _ _ Hc).
  unfold dispatch. destruct (dict_get d "action") as [[| | |a| |]|]; try done.
  destruct (Hother a eq_refl) as (Hn & Hp & Hd). simpl.
  apply String.eqb_neq in Hn, Hp, Hd. by rewrite Hn, Hp, Hd.
Qed.

Lemma unknown_action_witness :
  _handle_callback (PDict [("action", PStr "delete"); ("index", PInt 0)]) sample
    = (Ret (false, "Unknown action"), sample).
Proof.
  apply (unknown_action sample _ [("action", PStr "delete"); ("index", PInt 0)]).
  - by left.
  - intros a [= <-]. repeat split; discriminate.
Defined.

(** X15: the handler reads nothing of a payload but [action] and [index]:
    two payloads that agree on these two keys have the same effect.  In
    particular the page written in a detail token is not checked, so a
    button rendered on one page acts on the page that is current when it is
    pressed. *)
Theorem callback_reads_action_and_index self d1 d2 :
  dict_get d1 "action" = dict_get d2 "action" ->
  dict_get d1 "index" = dict_get d2 "index" ->
  _handle_callback (PDict d1) self = _handle_callback (PDict d2) self.
Proof. intros Ha Hi. unfold _handle_callback, dispatch. by rewrite Ha, Hi. Qed.

Lemma callback_reads_action_and_index_witness :
  _handle_callback (detail_token 0 1) (snd (next_page sample))
    = (Ret (true, "Selected item 0"),
       with_selected_item {[ "name" := PStr "Cy" ]} (snd (next_page sample))).
Proof.
  unfold detail_token.
  rewrite (callback_reads_action_and_index (snd (next_page sample))
             [("action", PStr "detail"); ("index", PInt 0); ("page", PInt 1)]
             [("action", PStr "detail"); ("index", PInt 0); ("page", PInt 2)]
             eq_refl eq_refl).
  reflexivity.
Defined.



Lemma refresh_selected self :
  selected_item (snd (_refresh self)) = selected_item self.
Proof.
  destruct (decide (page_size self = 0));
    [rewrite refresh_raises | rewrite refresh_returns]; done.
Qed.

Lemma handle_callback_selection callback_data self :
  let self' := snd (_handle_callback callback_data self) in
  selected_item self' = selected_item self \/
  exists record, record ∈ page_data self /\ selected_item self' = Some record.
Proof.
  assert (Hnext : selected_item (snd (next_page self)) = selected_item self).
  { unfold next_page, bind, get, assign, ret. case_decide; [|done].
    pose proof (refresh_selected
                  (with_current_page (current_page self + 1) self)) as Hr.
    by destruct (_refresh _) as [[[]|e] s]. }
  assert (Hprev : selected_item (snd (prev_page self)) = selected_item self).
  { unfold prev_page, bind, get, assign, ret. case_decide; [|done].
    pose proof (refresh_selected
                  (with_current_page (current_page self - 1) self)) as Hr.
    by destruct (_refresh _) as [[[]|e] s]. }
  assert (Hd : forall data,
             let self' := snd (dispatch data self) in
             selected_item self' = selected_item self \/
             exists record,
               record ∈ page_data self /\ selected_item self' = Some record).
  { intros data. destruct data as [| | | |l|d]; try (left; reflexivity).
    unfold dispatch.
    destruct (eq_str _ "next").
    { left. unfold bind. by destruct (next_page self) as [[[]|e] s]. }
    destruct (eq_str _ "prev").
    { left. unfold bind. by destruct (prev_page self) as [[[]|e] s]. }
    destruct (eq_str _ "detail"); [|left; reflexivity].
    cbv zeta. destruct (as_int _) as [i|]; [|left; reflexivity].
    unfold bind, get, assign, ret, raise.
    case_decide; [|left; reflexivity].
    destruct (page_data self !! Z.to_nat i) as [record|] eqn:Hrecord;
      [|left; reflexivity].
    right. exists record. split; [|done].
    by apply list_elem_of_lookup_2 in Hrecord. }
  destruct callback_data as [| | |s|l|d]; try apply Hd.
  unfold _handle_callback, bind, get.
  destruct (_deserialize_callback self s) as [data|e]; [apply Hd|].
  destruct e; left; reflexivity.
Qed.

Lemma page_data_from_data self record :
  in_sync self -> record ∈ page_data self -> record ∈ raw_data self.
Proof.
  intros Hsync Hin. pose proof (in_sync_page_size self Hsync) as Hz.
  destruct Hsync as [Hf Hp]. rewrite paginate_returns in Hp by done.
  injection Hp as Hpage _. rewrite <- Hpage in Hin. unfold py_slice in Hin.
  apply subseteq_take, subseteq_drop in Hin.
  rewrite Hf, apply_filters_filter in Hin.
  by apply list_elem_of_filter in Hin as [_ Hin].
Qed.

Lemma perform_selection self o record :
  in_sync self ->
  selected_item (perform self o) = Some record ->
  selected_item self = Some record \/ record ∈ raw_data self.
Proof.
  intros Hsync Hsel. pose proof (in_sync_page_size self Hsync) as Hz.
  destruct o as [kwargs| | |framework|callback_data]; simpl in Hsel.
  - unfold set_filters, bind, assign in Hsel.
    rewrite refresh_returns in Hsel by done. by left.
  - destruct (decide (current_page self < total_pages self)).
    + rewrite next_page_moves in Hsel by done. by left.
    + rewrite next_page_stays in Hsel by done. by left.
  - destruct (decide (current_page self > 1)).
    + rewrite prev_page_moves in Hsel by done. by left.
    + rewrite prev_page_stays in Hsel by done. by left.
  - rewrite build_message_state in Hsel. by left.
  - destruct (handle_callback_selection callback_data self)
      as [Hsame | (r & Hin & Hr)].
    + left. by rewrite <- Hsame.
    + right. rewrite Hsel in Hr. injection Hr as <-.
      by apply page_data_from_data.
Qed.

(** X17: the selected item is always a record of the data source: after
    construction nothing is selected, and after any sequence of operations
    a selected item, if there is one, is one of the records given to the
    constructor. *)
Theorem selection_from_data installed data_source names size chosen ser deser
    self ops record :
  __init__ installed data_source names size chosen ser deser = Ret self ->
  selected_item self = None /\
  (selected_item (run self ops) = Some record -> record ∈ data_source).
Proof.
  intros Hinit.
  destruct (constructed_in_sync _ _ _ _ _ _ _ _ Hinit) as (Hsync & Hraw & _).
  assert (Hnone : selected_item self = None).
  { destruct (init_cases installed data_source names size chosen ser deser)
      as [(_ & Hb) | [(_ & _ & Hb) | (_ & Hz & handlers & Hb)]];
      rewrite Hinit in Hb; try discriminate.
    by injection Hb as ->. }
  split; [done|]. rewrite <- Hraw. clear Hinit Hraw.
  assert (Hgen : forall start,
            in_sync start -> raw_data start = raw_data self ->
            (selected_item start = Some record -> record ∈ raw_data self) ->
            selected_item (run start ops) = Some record ->
            record ∈ raw_data self).
  { unfold run. induction ops as [|o ops IH]; intros start Hs Hr Hstart; [done|].
    simpl. destruct (perform_in_sync start o Hs) as [Hs' (Hr' & _)].
    apply IH; [done | congruence |].
    intros Hsel. destruct (perform_selection start o record Hs Hsel) as [H|H].
    - by apply Hstart.
    - by rewrite <- Hr. }
  apply Hgen; [done | done |]. by rewrite Hnone.
Qed.

Lemma selection_from_data_witness :
  selected_item
    (run sample [DecodeCallback (detail_token 1 1);
                 SetFilters {[ "name" := PStr "ann" ]}])
    = Some {[ "name" := PStr "Bob" ]} /\
  {[ "name" := PStr "Bob" ]} ∈ sample_records.
Proof.
  split; [reflexivity|].
  apply (selection_from_data
           (fun framework => match framework with Telegram => true | _ => false end)
           sample_records ["name"] 2 None None None sample
           [DecodeCallback (detail_token 1 1);
            SetFilters {[ "name" := PStr "ann" ]}]
           {[ "name" := PStr "Bob" ]} eq_refl).
  reflexivity.
Defined.

Lemma init_framework_handlers_registered installed self :
  _handlers self = ∅ ->
  _init_framework_handlers installed self
    = (Ret tt, with_handlers (registered installed) self).
Proof.
  intros Hempty. unfold _init_framework_handlers, registered, bind, get, assign, ret.
  destruct (installed Telegram), (installed Aiogram), (installed Pyrogram);
    simpl; rewrite ?Hempty; try reflexivity.
  rewrite <- Hempty. by destruct self.
Qed.

Lemma constructed_handlers installed data_source names size chosen ser deser
    self :
  __init__ installed data_source names size chosen ser deser = Ret self ->
  _handlers self = registered installed.
Proof.
  unfold __init__. case_decide; [discriminate|].
  unfold bind at 1.
  destruct (_refresh _) as [[[]|e] self1] eqn:Hrefresh; [|discriminate].
  assert (Hempty : _handlers self1 = ∅).
  { unfold _refresh, bind, get, assign, lift in Hrefresh. simpl in Hrefresh.
    destruct (paginate _ _ _) as [page|e]; [|discriminate].
    by injection Hrefresh as <-. }
  rewrite (init_framework_handlers_registered installed self1 Hempty).
  by intros [= <-].
Qed.

(** X18: which renderings work is fixed at construction: on an instance
    and after any sequence of operations, [build_message] raises (its
    [ValueError]) exactly when python-telegram-bot could not be imported
    and the requested framework is not the name of an SDK that could; with
    python-telegram-bot importable it returns for every framework name. *)
Theorem rendering_needs_an_sdk installed data_source names size chosen ser
    deser self ops framework :
  __init__ installed data_source names size chosen ser deser = Ret self ->
  let now := run self ops in
  (build_message framework now
     = (Raise (ValueError ("No handler found for framework: " +:+ framework)),
        now)
   <-> installed Telegram = false /\
       (framework = "aiogram" -> installed Aiogram = false) /\
       (framework = "pyrogram" -> installed Pyrogram = false)) /\
  ((exists shown keyboard, build_message framework now = (Ret (shown, keyboard), now))
   <-> ~ (installed Telegram = false /\
          (framework = "aiogram" -> installed Aiogram = false) /\
          (framework = "pyrogram" -> installed Pyrogram = false))).
Proof.
  intros Hinit now.
  destruct (constructed_in_sync _ _ _ _ _ _ _ _ Hinit) as (Hsync & _).
  destruct (run_in_sync self ops Hsync) as [_ (_ & _ & _ & _ & _ & Hh)].
  fold now in Hh. rewrite (constructed_handlers _ _ _ _ _ _ _ _ Hinit) in Hh.
  assert (Hnone : handler_for now framework = None <->
            installed Telegram = false /\
            (framework = "aiogram" -> installed Aiogram = false) /\
            (framework = "pyrogram" -> installed Pyrogram = false)).
  { unfold handler_for. rewrite <- Hh. unfold registered.
    destruct (installed Telegram), (installed Aiogram), (installed Pyrogram);
      simpl; rewrite ?lookup_insert, ?lookup_empty;
      repeat case_decide; subst; simpl;
      rewrite ?lookup_insert, ?lookup_empty;
      repeat case_decide; subst; simpl;
      try (split; [discriminate | intros (? & ? & ?); try discriminate; auto;
                                  naive_solver]);
      try (split; [intros _; repeat split; (done || congruence) | done]). }
  destruct (handler_for now framework) as [handler|] eqn:Hfound.
  - rewrite (build_message_returns now framework handler Hfound). split.
    + split; [discriminate|]. intros H. apply Hnone in H. discriminate.
    + split; [|eauto]. intros _ H. apply Hnone in H. discriminate.
  - assert (Hraise : build_message framework now =
              (Raise (ValueError ("No handler found for framework: " +:+ framework)),
               now)).
    { unfold build_message, bind, get, raise. cbv zeta. by rewrite Hfound. }
    rewrite Hraise. split.
    + split; [intros _; by apply Hnone | done].
    + split; [intros (? & ? & ?); discriminate|].
      intros H. destruct H. by apply Hnone.
Qed.

Lemma rendering_needs_an_sdk_witness :
  exists shown keyboard,
    build_message "whatever" (run sample [NextPage])
      = (Ret (shown, keyboard), run sample [NextPage]).
Proof.
  apply (rendering_needs_an_sdk
           (fun framework => match framework with Telegram => true | _ => false end)
           sample_records ["name"] 2 None None None sample [NextPage]
           "whatever" eq_refl).
  intros [Hno _]. discriminate Hno.
Defined.

Lemma refused_callback_state self callback_data message after :
  _handle_callback callback_data self = (Ret (false, message), after) ->
  after = self.
Proof.
  assert (Hnext : forall moved s, next_page self = (Ret moved, s) ->
                    moved = false -> s = self).
  { unfold next_page, bind, get, assign, ret. intros moved s.
    case_decide; [|by intros [= _ <-]].
    destruct (_refresh _) as [[[]|e] s1]; [|discriminate].
    intros [= <- _]. discriminate. }
  assert (Hprev : forall moved s, prev_page self = (Ret moved, s) ->
                    moved = false -> s = self).
  { unfold prev_page, bind, get, assign, ret. intros moved s.
    case_decide; [|by intros [= _ <-]].
    destruct (_refresh _) as [[[]|e] s1]; [|discriminate].
    intros [= <- _]. discriminate. }
  assert (Hd : forall data,
             dispatch data self = (Ret (false, message), after) -> after = self).
  { intros data. destruct data as [| | | |l|d]; try discriminate.
    unfold dispatch.
    destruct (eq_str _ "next").
    { unfold bind. destruct (next_page self) as [[moved|e] s] eqn:Hn;
        [|discriminate].
      destruct moved; [discriminate|]. intros [= _ <-]. by apply (Hnext false). }
    destruct (eq_str _ "prev").
    { unfold bind. destruct (prev_page self) as [[moved|e] s] eqn:Hp;
        [|discriminate].
      destruct moved; [discriminate|]. intros [= _ <-]. by apply (Hprev false). }
    destruct (eq_str _ "detail"); [|by intros [= _ <-]].
    cbv zeta. destruct (as_int _) as [i|]; [|discriminate].
    unfold bind, get, assign, ret, raise.
    case_decide; [|by intros [= _ <-]].
    destruct (page_data self !! Z.to_nat i); discriminate. }
  destruct callback_data as [| | |s|l|d]; try apply Hd.
  unfold _handle_callback, bind, get.
  destruct (_deserialize_callback self s) as [data|e]; [apply Hd|].
  destruct e; try discriminate; by intros [= _ <-].
Qed.

(** X19: a callback that is answered with [handled = false] has changed
    nothing: whatever the payload and the deserializer, when
    [_handle_callback] returns a pair whose first component is false the
    instance is as it was. *)
Theorem unhandled_callback_changes_nothing self callback_data message after :
  _handle_callback callback_data self = (Ret (false, message), after) ->
  after = self.
Proof. apply refused_callback_state. Qed.

Lemma unhandled_callback_changes_nothing_witness :
  snd (_handle_callback (PDict [("action", PStr "prev")]) sample) = sample.
Proof.
  exact (unhandled_callback_changes_nothing sample
           (PDict [("action", PStr "prev")]) "Already on first page"
           (snd (_handle_callback (PDict [("action", PStr "prev")]) sample))
           eq_refl).
Defined.

(** ** The legacy entry point *)

(** X20: [handle_callback] edits the message exactly when the callback
    was handled: when it returns false it made no call on the query and
    left the instance as it was; when it returns true it made one call,
    with the text and the keyboard [build_message] gives for
    python-telegram-bot on the instance as the callback left it, and parse
    mode HTML. *)
Theorem legacy_edits_when_handled self update handled edits after :
  handle_callback update self = (Ret (handled, edits), after) ->
  (handled = false /\ edits = [] /\ after = self) \/
  (handled = true /\
   exists shown keyboard,
     build_message "python-telegram-bot" after = (Ret (shown, keyboard), after) /\
     edits = [ {| edit_text := shown; reply_markup := keyboard;
                  parse_mode := "HTML" |} ]).
Proof.
  unfold handle_callback. destruct update as [query|];
    [|intros [= <- <- <-]; by left].
  unfold bind at 1. unfold get.
  destruct (_deserialize_callback self (query_data query)) as [data|e].
  - unfold bind at 1.
    destruct (_handle_callback data self) as [[[answered message]|e] s1] eqn:Hcall;
      [|discriminate].
    destruct answered; simpl.
    + unfold bind. pose proof (build_message_state "python-telegram-bot" s1) as Hs.
      destruct (build_message "python-telegram-bot" s1)
        as [[[shown keyboard]|e] s2] eqn:Hrender; [|discriminate].
      simpl in Hs. subst s2. intros [= <- <- <-]. right. split; [done|].
      exists shown, keyboard. by rewrite Hrender.
    + intros [= <- <- <-]. left. repeat split.
      by apply (refused_callback_state self data message).
  - destruct e; try discriminate; intros [= <- <- <-]; by left.
Qed.

Lemma legacy_edits_when_handled_witness :
  exists shown keyboard,
    build_message "python-telegram-bot" (snd (next_page sample))
      = (Ret (shown, keyboard), snd (next_page sample)) /\
    handle_callback
      (Some {| query_data := Json.dumps (PDict [("action", PStr "next")]) |})
      sample
    = (Ret (true, [ {| edit_text := shown; reply_markup := keyboard;
                       parse_mode := "HTML" |} ]),
       snd (next_page sample)).
Proof.
  destruct (handle_callback
              (Some {| query_data := Json.dumps (PDict [("action", PStr "next")]) |})
              sample) as [[[handled edits]|e] after] eqn:Hrun;
    [|discriminate Hrun].
  assert (Hafter : after = snd (next_page sample)) by by injection Hrun.
  assert (Htrue : handled = true) by by injection Hrun.
  destruct (legacy_edits_when_handled _ _ _ _ _ Hrun)
    as [(Hfalse & _) | (_ & shown & keyboard & Hrender & Hedits)];
    [congruence|].
  exists shown, keyboard. subst. split; [exact Hrender | reflexivity].
Defined.

(** X21: when python-telegram-bot is not registered, a callback that was
    handled through [handle_callback] ends in the [ValueError] of
    [build_message], and the change the callback made stays: the exception
    comes after the page was turned or the item selected. *)
Theorem legacy_raises_after_change self query data message after :
  _deserialize_callback self (query_data query) = Ret data ->
  _handle_callback data self = (Ret (true, message), after) ->
  handler_for after "python-telegram-bot" = None ->
  handle_callback (Some query) self
    = (Raise (ValueError "No handler found for framework: python-telegram-bot"),
       after).
Proof.
  intros Hdata Hcall Hnone. unfold handle_callback, bind, get.
  rewrite Hdata, Hcall. simpl.
  unfold build_message, bind, get, raise. cbv zeta. by rewrite Hnone.
Qed.

Lemma legacy_raises_after_change_witness :
  let bare := with_handlers ∅ sample in
  handle_callback
    (Some {| query_data := Json.dumps (PDict [("action", PStr "next")]) |}) bare
  = (Raise (ValueError "No handler found for framework: python-telegram-bot"),
     snd (next_page bare)) /\
  current_page (snd (next_page bare)) = 2.
Proof.
  split; [|reflexivity].
  apply (legacy_raises_after_change (with_handlers ∅ sample)
           {| query_data := Json.dumps (PDict [("action", PStr "next")]) |}
           (PDict [("action", PStr "next")]) "Next page");
    reflexivity.
Defined.

Lemma handle_callback_handlers callback_data self :
  page_size self <> 0 ->
  _handlers (snd (_handle_callback callback_data self)) = _handlers self.
Proof.
  intros Hz.
  destruct (handle_callback_state callback_data self)
    as [-> | [-> | [-> | [record ->]]]]; try done.
  - destruct (decide (current_page self < total_pages self)).
    + by rewrite next_page_moves.
    + by rewrite next_page_stays.
  - destruct (decide (current_page self > 1)).
    + by rewrite prev_page_moves.
    + by rewrite prev_page_stays.
Qed.

Lemma shown_button_token self class row pressed :
  page_size self <> 0 ->
  row ∈ expected_rows class self ++ expected_navigation class self ->
  pressed ∈ row ->
  exists d,
    callback_data pressed = _serialize_callback self (PDict d) /\
    valid_token (PDict d) /\
    exists message after, dispatch (PDict d) self = (Ret (true, message), after).
Proof.
  intros Hz Hrow Hpressed.
  apply elem_of_app in Hrow as [Hrow | Hrow].
  - unfold expected_rows in Hrow.
    apply elem_of_lookup_imap in Hrow as (i & record & -> & Hrecord).
    apply list_elem_of_singleton in Hpressed as ->.
    eexists. split; [reflexivity|]. split; [apply token_detail|].
    rewrite dispatch_detail by done.
    cbn [dict_get String.eqb Ascii.eqb Bool.eqb].
    change (default (PInt 0) (Some (PInt (Z.of_nat i)))) with (PInt (Z.of_nat i)).
    cbv zeta. cbn [as_int]. unfold bind, get, assign, ret.
    pose proof (lookup_lt_Some _ _ _ Hrecord) as Hlt.
    rewrite decide_True by lia. rewrite Nat2Z.id, Hrecord. eauto.
  - assert (Hprev : current_page self > 1 ->
              exists message after,
                dispatch (PDict [("action", PStr "prev")]) self
                  = (Ret (true, message), after)).
    { intros Hp. rewrite dispatch_prev by done. unfold bind.
      rewrite prev_page_moves by done. eauto. }
    assert (Hnext : current_page self < total_pages self ->
              exists message after,
                dispatch (PDict [("action", PStr "next")]) self
                  = (Ret (true, message), after)).
    { intros Hp. rewrite dispatch_next by done. unfold bind.
      rewrite next_page_moves by done. eauto. }
    unfold expected_navigation in Hrow.
    repeat case_decide;
      repeat match goal with
        | H : _ ∈ [_] |- _ => apply list_elem_of_singleton in H; subst
        | H : _ ∈ _ :: _ |- _ => apply elem_of_cons in H as [-> | H]
        | H : _ ∈ [] |- _ => apply elem_of_nil in H; destruct H
        end;
      eexists; (split; [reflexivity|]); (split; [constructor|]); auto.
Qed.

(** X22: the whole cycle of the legacy entry point: for a codec that
    gives tokens back, a page size that is not zero and python-telegram-bot
    registered, the data of every button of the rendered grid, delivered
    in an update to [handle_callback], is handled: the method returns true
    and edits the message once, with the text and the grid of the instance
    as the press left it. *)
Theorem legacy_press_rerenders self handler :
  codec_round_trips self -> page_size self <> 0 ->
  handler_for self "python-telegram-bot" = Some handler ->
  exists shown keyboard,
    build_message "python-telegram-bot" self = (Ret (shown, keyboard), self) /\
    forall row pressed,
      row ∈ inline_keyboard keyboard -> pressed ∈ row ->
      exists after,
        handle_callback (Some {| query_data := callback_data pressed |}) self
        = (Ret (true,
                [ {| edit_text := expected_text after;
                     reply_markup :=
                       {| markup_class := markup handler;
                          inline_keyboard :=
                            expected_rows (button handler) after
                            ++ expected_navigation (button handler) after |};
                     parse_mode := "HTML" |} ]),
           after).
Proof.
  intros Hcodec Hz Hfound. do 2 eexists.
  split; [by apply build_message_returns|].
  intros row pressed Hrow Hpressed. simpl in Hrow.
  destruct (shown_button_token self _ row pressed Hz Hrow Hpressed)
    as (d & Hdata & Htoken & message & after & Hcall).
  exists after. unfold handle_callback, bind, get. simpl.
  rewrite Hdata, (Hcodec _ Htoken).
  change (_handle_callback (PDict d) self) with (dispatch (PDict d) self).
  rewrite Hcall. simpl.
  assert (Hafter : handler_for after "python-telegram-bot" = Some handler).
  { pose proof (handle_callback_handlers (PDict d) self Hz) as Hh.
    change (_handle_callback (PDict d) self) with (dispatch (PDict d) self) in Hh.
    rewrite Hcall in Hh. simpl in Hh.
    unfold handler_for in *. by rewrite Hh. }
  by rewrite (build_message_returns after _ handler Hafter).
Qed.

Lemma legacy_press_rerenders_witness :
  exists shown keyboard,
    build_message "python-telegram-bot" sample = (Ret (shown, keyboard), sample) /\
    forall row pressed,
      row ∈ inline_keyboard keyboard -> pressed ∈ row ->
      exists after edits,
        handle_callback (Some {| query_data := callback_data pressed |}) sample
        = (Ret (true, edits), after) /\ length edits = 1%nat.
Proof.
  destruct (legacy_press_rerenders sample
              {| button := Telegram; markup := Telegram |} sample_codec
              ltac:(discriminate) eq_refl)
    as (shown & keyboard & Hrender & Hpress).
  exists shown, keyboard. split; [exact Hrender|].
  intros row pressed Hrow Hpressed.
  destruct (Hpress row pressed Hrow Hpressed) as [after Hcall].
  exists after. eexists. split; [exact Hcall | reflexivity].
Defined.
